(** * Cobbl playground page: typed variables and the run orchestrator

    A shallow embedding of the logic of [PlaygroundPage] (the page
    component of the playground): the variable editor
    ([addVariableField], [removeVariableField], [updateVariableField]),
    the submit-time conversion ([parseVariableValue] and the loop of
    [runPrompt] that fills the [variables] object), the run life cycle of
    [runPrompt] and the feedback widget's [onSuccess] callback.

    The page is TypeScript; what it relies on from the language
    ([String.prototype.trim], [parseFloat], [isNaN], [JSON.parse],
    property assignment on an ordinary object) is modelled here after
    ECMA-262, each piece next to its first use. *)

From Stdlib Require Import NArith ZArith QArith Ascii String Lia.
From stdpp Require Import base option list gmap.

#[local] Set Warnings "-register-all".
Local Open Scope N_scope.

(** ** Strings

    A JavaScript string is a sequence of 16-bit code units. *)

Definition jsstring := list N.

(** The code units of an ASCII literal. *)
Definition str (s : String.string) : jsstring :=
  map N_of_ascii (list_ascii_of_string s).

Definition ch (a : ascii) : N := N_of_ascii a.
#[global] Arguments ch : simpl never.

(** [WhiteSpace] and [LineTerminator] code points (ECMA-262, 12.2 and
    12.3): what [String.prototype.trim] and [parseFloat] strip. *)
Definition is_js_whitespace (c : N) : bool :=
  (c =? 0x09) || (c =? 0x0A) || (c =? 0x0B) || (c =? 0x0C) || (c =? 0x0D)
  || (c =? 0x20) || (c =? 0xA0) || (c =? 0x1680)
  || ((0x2000 <=? c) && (c <=? 0x200A))
  || (c =? 0x2028) || (c =? 0x2029) || (c =? 0x202F) || (c =? 0x205F)
  || (c =? 0x3000) || (c =? 0xFEFF).

Fixpoint trim_start (s : jsstring) : jsstring :=
  match s with
  | c :: r => if is_js_whitespace c then trim_start r else s
  | [] => []
  end.

Definition trim_end (s : jsstring) : jsstring := rev (trim_start (rev s)).

(** [String.prototype.trim]. *)
Definition trim (s : jsstring) : jsstring := trim_end (trim_start s).

(** Truthiness of a string: only the empty string is falsy. *)
Definition truthy_string (s : jsstring) : bool :=
  match s with [] => false | _ => true end.

(** The quotation mark, and the code units of an ASCII literal in which
    every apostrophe stands for a quotation mark (for writing JSON
    texts). *)
Definition quote : jsstring := [0x22].

Definition dq (s : String.string) : jsstring :=
  map (fun c => if c =? 0x27 then 0x22 else c) (str s).

(** [s] occurs in [t] as a contiguous run of code units. *)
Definition contains (t s : jsstring) : Prop :=
  exists before after, t = before ++ s ++ after.

(** [s] is a prefix of [t] : what is left of [t] after it. *)
Fixpoint strip_prefix (s t : jsstring) : option jsstring :=
  match s, t with
  | [], _ => Some t
  | a :: s', b :: t' => if a =? b then strip_prefix s' t' else None
  | _ :: _, [] => None
  end.

(** ** Numbers

    A Number is NaN, an infinity, or a finite binary64 value.  A finite
    value is kept as its sign and the exact magnitude of the decimal
    literal it was read from; the rounding of that magnitude to binary64
    is not modelled, only whether it overflows to an infinity (the sign is
    separate because JavaScript distinguishes [-0] from [+0]). *)

Inductive JSNumber :=
| NaN
| Infinity (negative : bool)
| Finite (negative : bool) (magnitude : Q).

Definition isNaN (n : JSNumber) : bool :=
  match n with NaN => true | _ => false end.

Definition isFinite (n : JSNumber) : bool :=
  match n with Finite _ _ => true | _ => false end.

Definition is_digit (c : N) : bool := (0x30 <=? c) && (c <=? 0x39).

Definition digit_value (c : N) : N := c - 0x30.

(** The longest run of decimal digits at the head of [s], and the rest. *)
Fixpoint take_digits (s : jsstring) : list N * jsstring :=
  match s with
  | c :: r =>
      if is_digit c
      then let '(ds, rest) := take_digits r in (digit_value c :: ds, rest)
      else ([], s)
  | [] => ([], [])
  end.

(** The mathematical value of a sequence of decimal digits. *)
Definition digits_value (ds : list N) : N :=
  fold_left (fun acc d => 10 * acc + d) ds 0.

(** The magnitude [mantissa * 10 ^ scale]. *)
Definition decimal_magnitude (mantissa : N) (scale : Z) : Q :=
  if (0 <=? scale)%Z
  then Qmake (Z.of_N mantissa * 10 ^ scale) 1
  else Qmake (Z.of_N mantissa) (Z.to_pos (10 ^ (- scale))).

(** Half-way between the largest finite binary64 value and [2^1024]:
    magnitudes from here on round to an infinity. *)
Definition overflow_threshold : Q :=
  Qmake (2 ^ 1024 - 2 ^ 970) 1.

(** The Number value of a decimal literal with integer digits [int],
    fraction digits [frac] and exponent [e]. *)
Definition number_of_decimal (negative : bool) (int frac : list N) (e : Z)
  : JSNumber :=
  let q := decimal_magnitude (digits_value (int ++ frac))
                             (e - Z.of_nat (length frac)) in
  if Qle_bool overflow_threshold q then Infinity negative
  else Finite negative q.

(** An optional sign at the head of [s]: whether it is a minus, and the
    rest. *)
Definition take_sign (s : jsstring) : bool * jsstring :=
  match s with
  | c :: r =>
      if c =? ch "-" then (true, r)
      else if c =? ch "+" then (false, r)
      else (false, s)
  | [] => (false, s)
  end.

(** An [ExponentPart] at the head of [s], if there is a complete one:
    [e] or [E], an optional sign and at least one digit. *)
Definition take_exponent (s : jsstring) : Z * jsstring :=
  match s with
  | c :: r =>
      if (c =? ch "e") || (c =? ch "E") then
        let '(negative, r') := take_sign r in
        match take_digits r' with
        | ([], _) => (0%Z, s)
        | (ds, rest) =>
            let v := Z.of_N (digits_value ds) in
            ((if negative then - v else v)%Z, rest)
        end
      else (0%Z, s)
  | [] => (0%Z, s)
  end.

(** What follows the integer digits [int] of a [StrUnsignedDecimalLiteral]:
    a dot and the digits after it, which may be missing only when [int] is
    not. *)
Definition take_str_fraction (int : list N) (s : jsstring)
  : list N * jsstring :=
  match s with
  | c :: r =>
      if c =? ch "." then
        match int, take_digits r with
        | [], ([], _) => ([], s)
        | _, (fs, r') => (fs, r')
        end
      else ([], s)
  | [] => ([], s)
  end.

(** The longest prefix of [s] that is a [StrUnsignedDecimalLiteral]
    (ECMA-262, 7.1.4.1), as a Number of sign [negative]; [NaN] when no
    prefix is one. *)
Definition unsigned_decimal_prefix (negative : bool) (s : jsstring)
  : JSNumber :=
  match strip_prefix (str "Infinity") s with
  | Some _ => Infinity negative
  | None =>
      let '(int, r) := take_digits s in
      let '(frac, r1) := take_str_fraction int r in
      match int, frac with
      | [], [] => NaN
      | _, _ =>
          let '(e, _) := take_exponent r1 in
          number_of_decimal negative int frac e
      end
  end.

(** [parseFloat] (ECMA-262, 19.2.4): leading white space is dropped, then
    the longest prefix that is a [StrDecimalLiteral] is read; whatever
    follows it is ignored. *)
Definition parseFloat (s : jsstring) : JSNumber :=
  let '(negative, r) := take_sign (trim_start s) in
  unsigned_decimal_prefix negative r.

(** ** JSON values and [JSON.parse]

    The values [JSON.parse] can produce.  An object keeps its own
    properties in creation order; an array its elements. *)

Inductive JSValue :=
| JNull
| JBool (b : bool)
| JNumber (n : JSNumber)
| JString (s : jsstring)
| JArray (elements : list JSValue)
| JObject (properties : list (jsstring * JSValue)).

Definition Array_isArray (v : JSValue) : bool :=
  match v with JArray _ => true | _ => false end.

Inductive TypeTag :=
| tag_object | tag_boolean | tag_number | tag_string.

(** The [typeof] operator; [typeof null] is ["object"]. *)
Definition typeof (v : JSValue) : TypeTag :=
  match v with
  | JNull => tag_object
  | JBool _ => tag_boolean
  | JNumber _ => tag_number
  | JString _ => tag_string
  | JArray _ => tag_object
  | JObject _ => tag_object
  end.

Definition is_tag_object (t : TypeTag) : bool :=
  match t with tag_object => true | _ => false end.

(** The values that are objects in the sense of JSON: not arrays, not
    [null]. *)
Definition is_json_object (v : JSValue) : bool :=
  match v with JObject _ => true | _ => false end.

(** [CreateDataProperty] on the property list of an object under
    construction: a key met again keeps its place and takes the new
    value. *)
Fixpoint define_property (k : jsstring) (v : JSValue)
    (props : list (jsstring * JSValue)) : list (jsstring * JSValue) :=
  match props with
  | [] => [(k, v)]
  | (k', v') :: rest =>
      if bool_decide (k' = k) then (k, v) :: rest
      else (k', v') :: define_property k v rest
  end.

Definition has_property (k : jsstring) (props : list (jsstring * JSValue))
  : bool :=
  existsb (fun kv => bool_decide (kv.1 = k)) props.

(** JSON white space: tab, line feed, carriage return, space. *)
Definition is_json_ws (c : N) : bool :=
  (c =? 0x09) || (c =? 0x0A) || (c =? 0x0D) || (c =? 0x20).

Fixpoint skip_json_ws (s : jsstring) : jsstring :=
  match s with
  | c :: r => if is_json_ws c then skip_json_ws r else s
  | [] => []
  end.

Definition hex_value (c : N) : option N :=
  if is_digit c then Some (c - 0x30)
  else if (0x41 <=? c) && (c <=? 0x46) then Some (c - 0x41 + 10)
  else if (0x61 <=? c) && (c <=? 0x66) then Some (c - 0x61 + 10)
  else None.

(** The code unit of a single-character escape [\c]. *)
Definition simple_escape (c : N) : option N :=
  if c =? 0x22 then Some 0x22            (* quotation mark *)
  else if c =? 0x5C then Some 0x5C       (* reverse solidus *)
  else if c =? 0x2F then Some 0x2F       (* solidus *)
  else if c =? ch "b" then Some 0x08
  else if c =? ch "f" then Some 0x0C
  else if c =? ch "n" then Some 0x0A
  else if c =? ch "r" then Some 0x0D
  else if c =? ch "t" then Some 0x09
  else None.

(** The characters of a JSON string after its opening quote, up to and
    including the closing quote: the string's value and what follows. *)
Fixpoint parse_string_chars (s : jsstring) : option (jsstring * jsstring) :=
  match s with
  | [] => None
  | c :: r =>
      if c =? 0x22 then Some ([], r)
      else if c =? 0x5C then
        match r with
        | e :: r1 =>
            if e =? ch "u" then
              match r1 with
              | h1 :: h2 :: h3 :: h4 :: r2 =>
                  match hex_value h1, hex_value h2, hex_value h3,
                        hex_value h4 with
                  | Some a, Some b, Some c', Some d =>
                      match parse_string_chars r2 with
                      | Some (v, rest) =>
                          Some (((a * 16 + b) * 16 + c') * 16 + d :: v, rest)
                      | None => None
                      end
                  | _, _, _, _ => None
                  end
              | _ => None
              end
            else
              match simple_escape e with
              | Some u =>
                  match parse_string_chars r1 with
                  | Some (v, rest) => Some (u :: v, rest)
                  | None => None
                  end
              | None => None
              end
        | [] => None
        end
      else if c <? 0x20 then None
      else
        match parse_string_chars r with
        | Some (v, rest) => Some (c :: v, rest)
        | None => None
        end
  end.

(** A minus sign at the head of [s], if there is one. *)
Definition take_minus (s : jsstring) : bool * jsstring :=
  match s with
  | c :: r => if c =? ch "-" then (true, r) else (false, s)
  | [] => (false, s)
  end.

(** The integer part of a JSON number: [0] alone, or digits that start
    with a non-zero one. *)
Definition take_json_int (s : jsstring) : list N * jsstring :=
  match s with
  | c :: r => if c =? ch "0" then ([0], r) else take_digits s
  | [] => ([], s)
  end.

(** The fraction of a JSON number: a dot and at least one digit. *)
Definition take_json_fraction (s : jsstring) : list N * jsstring :=
  match s with
  | c :: r =>
      if c =? ch "." then
        match take_digits r with
        | ([], _) => ([], s)
        | (fs, r') => (fs, r')
        end
      else ([], s)
  | [] => ([], s)
  end.

(** The longest prefix of [s] that is a JSON number ([-? int frac? exp?]),
    as a Number. *)
Definition parse_json_number (s : jsstring) : option (JSNumber * jsstring) :=
  let '(negative, s1) := take_minus s in
  let '(int, r) := take_json_int s1 in
  match int with
  | [] => None
  | _ =>
      let '(frac, r1) := take_json_fraction r in
      let '(e, r2) := take_exponent r1 in
      Some (number_of_decimal negative int frac e, r2)
  end.

(** A string, [true], [false], [null] or a number at the head of [s]. *)
Definition parse_scalar (s : jsstring) : option (JSValue * jsstring) :=
  match s with
  | [] => None
  | c :: r =>
      if c =? 0x22 then
        match parse_string_chars r with
        | Some (v, rest) => Some (JString v, rest)
        | None => None
        end
      else
        match strip_prefix (str "true") s,
              strip_prefix (str "false") s,
              strip_prefix (str "null") s with
        | Some rest, _, _ => Some (JBool true, rest)
        | _, Some rest, _ => Some (JBool false, rest)
        | _, _, Some rest => Some (JNull, rest)
        | None, None, None =>
            match parse_json_number s with
            | Some (n, rest) => Some (JNumber n, rest)
            | None => None
            end
        end
  end.

(** A JSON value at the head of [s] (after white space) and what follows
    it.  [fuel] bounds the nesting and the number of elements; the length
    of the text is always enough. *)
Fixpoint parse_value (fuel : nat) (s : jsstring)
  : option (JSValue * jsstring) :=
  match fuel with
  | O => None
  | S fuel' =>
      match skip_json_ws s with
      | [] => None
      | c :: r =>
          if c =? ch "{" then
            match skip_json_ws r with
            | c' :: r' =>
                if c' =? ch "}" then Some (JObject [], r')
                else parse_members fuel' r []
            | [] => None
            end
          else if c =? ch "[" then
            match skip_json_ws r with
            | c' :: r' =>
                if c' =? ch "]" then Some (JArray [], r')
                else parse_elements fuel' r []
            | [] => None
            end
          else parse_scalar (c :: r)
      end
  end
with parse_elements (fuel : nat) (s : jsstring) (acc : list JSValue)
  : option (JSValue * jsstring) :=
  match fuel with
  | O => None
  | S fuel' =>
      match parse_value fuel' s with
      | Some (v, r) =>
          match skip_json_ws r with
          | c :: r' =>
              if c =? ch "," then parse_elements fuel' r' (acc ++ [v])
              else if c =? ch "]" then Some (JArray (acc ++ [v]), r')
              else None
          | [] => None
          end
      | None => None
      end
  end
with parse_members (fuel : nat) (s : jsstring)
    (acc : list (jsstring * JSValue)) : option (JSValue * jsstring) :=
  match fuel with
  | O => None
  | S fuel' =>
      match skip_json_ws s with
      | q :: r =>
          if q =? 0x22 then
            match parse_string_chars r with
            | Some (k, r1) =>
                match skip_json_ws r1 with
                | c1 :: r2 =>
                    if c1 =? ch ":" then
                      match parse_value fuel' r2 with
                      | Some (v, r3) =>
                          match skip_json_ws r3 with
                          | c3 :: r4 =>
                              if c3 =? ch "," then
                                parse_members fuel' r4
                                              (define_property k v acc)
                              else if c3 =? ch "}" then
                                Some (JObject (define_property k v acc), r4)
                              else None
                          | [] => None
                          end
                      | None => None
                      end
                    else None
                | [] => None
                end
            | None => None
            end
          else None
      | [] => None
      end
  end.

(** A parsing function [f] gets nothing more out of a text with more fuel
    than [n]: each of its results with [n] consumes part of the text, and
    is its result with any fuel that is at least the number of code units
    consumed. *)
Definition fuel_enough {A}
    (f : nat -> jsstring -> A -> option (JSValue * jsstring)) (n : nat)
  : Prop :=
  forall s a v r,
    f n s a = Some (v, r) ->
    (length r < length s)%nat
    /\ forall m, (length s - length r <= m)%nat -> f m s a = Some (v, r).

(** [JSON.parse] without a reviver: [Some v] for a text that is one JSON
    value between optional white space, [None] where the engine throws a
    [SyntaxError]. *)
Definition JSON_parse (text : jsstring) : option JSValue :=
  match parse_value (S (length text)) text with
  | Some (v, rest) =>
      match skip_json_ws rest with
      | [] => Some v
      | _ :: _ => None
      end
  | None => None
  end.

(** ** Completions

    A computation either returns normally or throws.  A thrown value is
    an [Error] object (of any subclass) with its message, or something
    else. *)

Inductive JSThrown :=
| ErrorObject (message : jsstring)
| OtherThrown.

Inductive completion (A : Type) :=
| Normal (a : A)
| Throw (e : JSThrown).
Arguments Normal {A} a.
Arguments Throw {A} e.

#[global] Instance completion_ret : MRet completion := fun A a => Normal a.
#[global] Instance completion_bind : MBind completion := fun A B f m =>
  match m with
  | Normal a => f a
  | Throw e => Throw e
  end.

(** [try { body } catch (e) { handler e }]. *)
Definition try_catch {A} (body : completion A)
    (handler : JSThrown -> completion A) : completion A :=
  match body with
  | Normal a => Normal a
  | Throw e => handler e
  end.

(** [e instanceof Error ? e.message : fallback]. *)
Definition message_or (e : JSThrown) (fallback : jsstring) : jsstring :=
  match e with
  | ErrorObject m => m
  | OtherThrown => fallback
  end.

(** ** The variable editor *)

Inductive VariableType :=
| TyString | TyNumber | TyBoolean | TyList | TyObject.

#[global] Instance VariableType_eq_dec : EqDecision VariableType.
Proof. solve_decision. Defined.

(** One row of [variableFields]. *)
Record VariableField := {
  key : jsstring;
  type : VariableType;
  value : jsstring;
  boolValue : bool;
  parseError : option jsstring;
}.

Definition set_key (v : jsstring) (f : VariableField) : VariableField :=
  {| key := v; type := type f; value := value f; boolValue := boolValue f;
     parseError := parseError f |}.
Definition set_type (t : VariableType) (f : VariableField) : VariableField :=
  {| key := key f; type := t; value := value f; boolValue := boolValue f;
     parseError := parseError f |}.
Definition set_value (v : jsstring) (f : VariableField) : VariableField :=
  {| key := key f; type := type f; value := v; boolValue := boolValue f;
     parseError := parseError f |}.
Definition set_boolValue (b : bool) (f : VariableField) : VariableField :=
  {| key := key f; type := type f; value := value f; boolValue := b;
     parseError := parseError f |}.
Definition set_parseError (e : option jsstring) (f : VariableField)
  : VariableField :=
  {| key := key f; type := type f; value := value f; boolValue := boolValue f;
     parseError := e |}.

Definition addVariableField (variableFields : list VariableField)
  : list VariableField :=
  variableFields ++
  [ {| key := []; type := TyString; value := []; boolValue := false;
       parseError := None |} ].

Definition removeVariableField (index : nat)
    (variableFields : list VariableField) : list VariableField :=
  delete index variableFields.

(** The [field] and [value] arguments of [updateVariableField], as the
    page passes them. *)
Inductive FieldUpdate :=
| upd_key (v : jsstring)
| upd_value (v : jsstring)
| upd_type (newType : VariableType)
| upd_boolValue (v : bool).

(** What [updateVariableField] does to the row [updated[index]].  The
    copy [[...variableFields]] is shallow, so the row is changed in place;
    nothing can throw between that and [setVariableFields(updated)], and
    the change is modelled as a new row in a new list. *)
Definition update_row (u : FieldUpdate) (row : VariableField)
  : VariableField :=
  match u with
  | upd_type newType =>
      let row := set_type newType row in
      let row :=
        if decide (newType = TyBoolean) then
          set_value [] (set_boolValue false row)
        else if decide (newType = TyList \/ newType = TyObject) then
          set_value (if decide (newType = TyList) then str "[]"
                     else str "{}") row
        else set_value [] row in
      set_parseError None row
  | upd_boolValue v => set_boolValue v row
  | upd_key v => set_key v row
  | upd_value v =>
      let row := set_value v row in
      if decide (type row = TyList \/ type row = TyObject) then
        match JSON_parse v with
        | Some _ => set_parseError None row
        | None => set_parseError (Some (str "Invalid JSON")) row
        end
      else row
  end.

(** [updateVariableField]: the new [variableFields], or [None] when
    [updated[index]] is [undefined] and the handler dies with a
    [TypeError] before it reaches [setVariableFields]. *)
Definition updateVariableField (index : nat) (u : FieldUpdate)
    (variableFields : list VariableField) : option (list VariableField) :=
  match variableFields !! index with
  | Some row => Some (<[index := update_row u row]> variableFields)
  | None => None
  end.

(** ** The [variables] object

    [runPrompt] collects the converted values in an object literal
    [{}] and writes each one with [variables[k] = v].  Such an object has
    its own properties and a prototype, at first [Object.prototype]; an
    assignment is the ordinary [[Set]] (ECMA-262, 10.1.9): when the object
    has no own property [k], the prototype chain is searched, and a data
    property or no property found there makes the assignment create an own
    property, while an accessor found there has its setter called instead.
    The one accessor on the chains that can arise is
    [Object.prototype.__proto__], whose setter replaces the prototype when
    the value is an object or [null] and does nothing for any other
    value. *)

Inductive Prototype :=
| ObjectPrototype
| NullPrototype
| ValuePrototype (v : JSValue).

Record VarsObject := {
  own : gmap jsstring JSValue;
  proto : Prototype;
}.

(** The object literal [{}]. *)
Definition empty_object : VarsObject :=
  {| own := ∅; proto := ObjectPrototype |}.

Definition proto_key : jsstring := str "__proto__".

(** Whether looking [__proto__] up from the prototype [p] reaches the
    accessor of [Object.prototype]: a parsed object with an own
    [__proto__] data property hides it, and so does a [null] prototype;
    a parsed array or object inherits from [Array.prototype] or
    [Object.prototype]. *)
Definition reaches_proto_accessor (p : Prototype) : bool :=
  match p with
  | ObjectPrototype => true
  | NullPrototype => false
  | ValuePrototype (JObject props) => negb (has_property proto_key props)
  | ValuePrototype _ => true
  end.

(** The setter of [Object.prototype.__proto__] called on [o] with [v]. *)
Definition set_proto_accessor (v : JSValue) (o : VarsObject) : VarsObject :=
  match v with
  | JArray _ | JObject _ => {| own := own o; proto := ValuePrototype v |}
  | JNull => {| own := own o; proto := NullPrototype |}
  | _ => o
  end.

(** [o[k] = v]. *)
Definition object_set (k : jsstring) (v : JSValue) (o : VarsObject)
  : VarsObject :=
  if bool_decide (k = proto_key)
     && bool_decide (own o !! k = None)
     && reaches_proto_accessor (proto o)
  then set_proto_accessor v o
  else {| own := <[k := v]> (own o); proto := proto o |}.

(** ** The run orchestrator *)

(** Modelled from the spec: the SDK's [RunPromptResponse] type is declared
    in the client package, outside the page; these are the parts of a
    RunResult the spec lists and the page displays. *)
Record RunPromptResponse := {
  output : jsstring;
  runId : jsstring;
  renderedPrompt : jsstring;
  model : jsstring;
  provider : jsstring;
  inputTokens : N;
  outputTokens : N;
  totalTokens : N;
}.

Record RunPromptFormData := {
  apiKey : jsstring;
  promptSlug : jsstring;
}.

(** The [useState] cells of the page.  [widgetKey] is a Number that is
    only ever set to [0] and incremented by one, so it holds a natural
    number exactly. *)
Record PageState := {
  promptResponse : option RunPromptResponse;
  feedbackIds : list jsstring;
  widgetKey : N;
  error : option jsstring;
  isRunning : bool;
  variableFields : list VariableField;
  showRunPrompt : bool;
}.

(** What a run does to the outside, in order: calls of the state setters
    and of the remote client. *)
Inductive Effect :=
| setIsRunning (b : bool)
| setError (e : option jsstring)
| setPromptResponse (r : option RunPromptResponse)
| setFeedbackIds (ids : list jsstring)
| setWidgetKey (k : N)
| setShowRunPrompt (b : bool)
| new_CobblAdminClient (apiKey baseUrl : jsstring)
| client_runPrompt (promptSlug : jsstring) (variables : VarsObject).

(** The effects that reach the remote client, as opposed to setter
    calls. *)
Definition is_client_effect (e : Effect) : bool :=
  match e with
  | new_CobblAdminClient _ _ | client_runPrompt _ _ => true
  | _ => false
  end.

Definition apply_effect (s : PageState) (e : Effect) : PageState :=
  match e with
  | setIsRunning b =>
      {| promptResponse := promptResponse s; feedbackIds := feedbackIds s;
         widgetKey := widgetKey s; error := error s; isRunning := b;
         variableFields := variableFields s;
         showRunPrompt := showRunPrompt s |}
  | setError e =>
      {| promptResponse := promptResponse s; feedbackIds := feedbackIds s;
         widgetKey := widgetKey s; error := e; isRunning := isRunning s;
         variableFields := variableFields s;
         showRunPrompt := showRunPrompt s |}
  | setPromptResponse r =>
      {| promptResponse := r; feedbackIds := feedbackIds s;
         widgetKey := widgetKey s; error := error s;
         isRunning := isRunning s; variableFields := variableFields s;
         showRunPrompt := showRunPrompt s |}
  | setFeedbackIds ids =>
      {| promptResponse := promptResponse s; feedbackIds := ids;
         widgetKey := widgetKey s; error := error s;
         isRunning := isRunning s; variableFields := variableFields s;
         showRunPrompt := showRunPrompt s |}
  | setWidgetKey k =>
      {| promptResponse := promptResponse s; feedbackIds := feedbackIds s;
         widgetKey := k; error := error s; isRunning := isRunning s;
         variableFields := variableFields s;
         showRunPrompt := showRunPrompt s |}
  | setShowRunPrompt b =>
      {| promptResponse := promptResponse s; feedbackIds := feedbackIds s;
         widgetKey := widgetKey s; error := error s;
         isRunning := isRunning s; variableFields := variableFields s;
         showRunPrompt := b |}
  | new_CobblAdminClient _ _ => s
  | client_runPrompt _ _ => s
  end.

(** The page state once every setter call of a trace has been applied. *)
Definition apply_effects (s : PageState) (trace : list Effect) : PageState :=
  fold_left apply_effect trace s.

(** What the remote client does with one request: its constructor throws,
    or [runPrompt] is called and its promise rejects or resolves. *)
Inductive ClientOutcome :=
| ConstructorThrows (e : JSThrown)
| Rejects (e : JSThrown)
| Resolves (result : RunPromptResponse).

(** The feedback widget's [onSuccess] and [onError] callbacks. *)
Definition onSuccess (feedbackId : jsstring) (s : PageState) : PageState :=
  apply_effects s [ setFeedbackIds (feedbackIds s ++ [feedbackId]);
                    setWidgetKey (widgetKey s + 1) ].

Definition onError (message : jsstring) (s : PageState) : PageState :=
  apply_effects s [ setError (Some message) ].

(** ** Editing sessions and feedback sessions

    The page starts with no rows ([useState([])]); every later list of
    rows comes from the three handlers, called from the controls of the
    form. *)

(** [Array.prototype.filter] with a callback that is given the element and
    its index, from the index [i] on. *)
Fixpoint Array_filter_from {A} (keep : A -> nat -> bool) (i : nat)
    (l : list A) : list A :=
  match l with
  | [] => []
  | x :: rest =>
      if keep x i then x :: Array_filter_from keep (S i) rest
      else Array_filter_from keep (S i) rest
  end.

Definition Array_filter {A} (keep : A -> nat -> bool) (l : list A) : list A :=
  Array_filter_from keep 0 l.

Inductive EditorAction :=
| act_add
| act_remove (index : nat)
| act_update (index : nat) (u : FieldUpdate).

(** The rows after one handler call; a handler that dies with a
    [TypeError] leaves them as they were. *)
Definition edit (fields : list VariableField) (a : EditorAction)
  : list VariableField :=
  match a with
  | act_add => addVariableField fields
  | act_remove index => removeVariableField index fields
  | act_update index u =>
      match updateVariableField index u fields with
      | Some fields' => fields'
      | None => fields
      end
  end.

(** The flag of a row agrees with its content: on a list or object row it
    is ["Invalid JSON"] exactly when the raw value does not parse, and on
    any other row there is none. *)
Definition well_flagged (f : VariableField) : Prop :=
  parseError f =
    match type f with
    | TyList | TyObject =>
        match JSON_parse (value f) with
        | Some _ => None
        | None => Some (str "Invalid JSON")
        end
    | TyString | TyNumber | TyBoolean => None
    end.

(** What the feedback widget reports back, one callback at a time. *)
Inductive FeedbackEvent :=
| fb_success (feedbackId : jsstring)
| fb_error (message : jsstring).

Definition feedback (s : PageState) (ev : FeedbackEvent) : PageState :=
  match ev with
  | fb_success feedbackId => onSuccess feedbackId s
  | fb_error message => onError message s
  end.

(** The ids of the successful submissions among [evs], in order, and the
    message of the last failed one. *)
Definition success_ids (evs : list FeedbackEvent) : list jsstring :=
  omap (fun ev => match ev with
                  | fb_success feedbackId => Some feedbackId
                  | fb_error _ => None
                  end) evs.

Definition last_error (evs : list FeedbackEvent) : option jsstring :=
  last (omap (fun ev => match ev with
                        | fb_success _ => None
                        | fb_error message => Some message
                        end) evs).


Definition is_runPrompt_call (e : Effect) : bool :=
  match e with client_runPrompt _ _ => true | _ => false end.

Definition is_new_client (e : Effect) : bool :=
  match e with new_CobblAdminClient _ _ => true | _ => false end.

Section Page.

(** The message of the [SyntaxError] that [JSON.parse] throws for a text;
    its wording is the engine's. *)
Variable syntax_error_message : jsstring -> jsstring.

Definition JSON_parse_throwing (text : jsstring) : completion JSValue :=
  match JSON_parse text with
  | Some v => Normal v
  | None => Throw (ErrorObject (syntax_error_message text))
  end.

Definition parseVariableValue (type : VariableType) (value : jsstring)
    (boolValue : bool) : completion JSValue :=
  match type with
  | TyString => Normal (JString value)
  | TyNumber =>
      let parsed := parseFloat value in
      if isNaN parsed
      then Throw (ErrorObject (str "Invalid number: " ++ value))
      else Normal (JNumber parsed)
  | TyBoolean => Normal (JBool boolValue)
  | TyList =>
      try_catch
        (parsed ← JSON_parse_throwing value;
         if negb (Array_isArray parsed)
         then Throw (ErrorObject (str "Value must be an array"))
         else Normal parsed)
        (fun e =>
           Throw (ErrorObject (str "Invalid list JSON: "
                               ++ message_or e (str "Unknown error"))))
  | TyObject =>
      try_catch
        (parsed ← JSON_parse_throwing value;
         if Array_isArray parsed || negb (is_tag_object (typeof parsed))
         then Throw (ErrorObject (str "Value must be an object"))
         else Normal parsed)
        (fun e =>
           Throw (ErrorObject (str "Invalid object JSON: "
                               ++ message_or e (str "Unknown error"))))
  end.


(** The template literal [Error parsing variable "${key}": ${message}]. *)
Definition variable_error_message (key message : jsstring) : jsstring :=
  str "Error parsing variable " ++ quote ++ key ++ quote ++ str ": "
  ++ message.

(** The loop of [runPrompt] over [variableFields], from the row [fields]
    starts with: rows with a blank key are passed over, the others are
    converted and written to [variables], and a failed conversion is
    thrown again with the row's key in front of its message. *)
Fixpoint build_variables (fields : list VariableField)
    (variables : VarsObject) : completion VarsObject :=
  match fields with
  | [] => Normal variables
  | field :: rest =>
      if truthy_string (trim (key field)) then
        variables ←
          try_catch
            (v ← parseVariableValue (type field) (value field)
                                    (boolValue field);
             Normal (object_set (trim (key field)) v variables))
            (fun parseError =>
               Throw (ErrorObject
                        (variable_error_message
                           (key field)
                           (message_or parseError (str "Unknown error")))));
        build_variables rest variables
      else build_variables rest variables
  end.

(** A row the loop gets past: its key is blank, or it converts. *)
Definition passes (f : VariableField) : Prop :=
  trim (key f) = [] \/
  exists v, parseVariableValue (type f) (value f) (boolValue f) = Normal v.

(** The converted value of a row, when it has one. *)
Definition converted (f : VariableField) : option JSValue :=
  match parseVariableValue (type f) (value f) (boolValue f) with
  | Normal v => Some v
  | Throw _ => None
  end.

(** The last row of [fields] whose trimmed key is [k]. *)
Fixpoint last_row_with_key (k : jsstring) (fields : list VariableField)
  : option VariableField :=
  match fields with
  | [] => None
  | f :: rest =>
      match last_row_with_key k rest with
      | Some g => Some g
      | None => if bool_decide (trim (key f) = k) then Some f else None
      end
  end.

(** [process.env.NEXT_PUBLIC_EXTERNAL_API_URL]: [None] for [undefined]. *)
Variable NEXT_PUBLIC_EXTERNAL_API_URL : option jsstring.

(** The remote client: what a request with these credentials, base URL,
    slug and variables leads to. *)
Variable remote :
  jsstring -> jsstring -> jsstring -> VarsObject -> ClientOutcome.

(** The [try] block of [runPrompt]: the effects it gets to, and how it
    ends. *)
Definition runPrompt_try (data : RunPromptFormData)
    (fields : list VariableField) : list Effect * completion unit :=
  match build_variables fields empty_object with
  | Throw e => ([], Throw e)
  | Normal variables =>
      match NEXT_PUBLIC_EXTERNAL_API_URL with
      | None | Some [] =>
          ([], Throw (ErrorObject
                        (str "NEXT_PUBLIC_EXTERNAL_API_URL is not configured")))
      | Some baseUrl =>
          match remote (apiKey data) baseUrl (promptSlug data) variables with
          | ConstructorThrows e =>
              ([new_CobblAdminClient (apiKey data) baseUrl], Throw e)
          | Rejects e =>
              ([new_CobblAdminClient (apiKey data) baseUrl;
                client_runPrompt (promptSlug data) variables], Throw e)
          | Resolves result =>
              ([new_CobblAdminClient (apiKey data) baseUrl;
                client_runPrompt (promptSlug data) variables;
                setPromptResponse (Some result);
                setShowRunPrompt false], Normal ())
          end
      end
  end.

(** The setter calls [runPrompt] opens with, before its [try] block. *)
Definition runPrompt_reset : list Effect :=
  [ setIsRunning true; setError None; setPromptResponse None;
    setFeedbackIds []; setWidgetKey 0 ].

(** [runPrompt], called in state [s]: everything it does, in order. *)
Definition runPrompt (data : RunPromptFormData) (s : PageState)
  : list Effect :=
  let '(body, outcome) := runPrompt_try data (variableFields s) in
  runPrompt_reset
  ++ body
  ++ match outcome with
     | Normal _ => []
     | Throw err =>
         [ setError (Some (message_or err (str "An unknown error occurred"))) ]
     end
  ++ [ setIsRunning false ].

(** The page state when the run is over. *)
Definition after_runPrompt (data : RunPromptFormData) (s : PageState)
  : PageState :=
  apply_effects s (runPrompt data s).

End Page.

(** ** A sample environment

    An engine whose [JSON.parse] reports every syntax error with the same
    words, a configured base URL, a remote that answers every request with
    the same response, and a page state to start from: used to run the
    model on concrete inputs. *)

Definition sample_message (text : jsstring) : jsstring :=
  str "Unexpected token in JSON".

Definition sample_url : option jsstring :=
  Some (str "https://api.example.test").

Definition sample_response : RunPromptResponse :=
  {| output := str "Hello"; runId := str "run-1";
     renderedPrompt := str "Say hello"; model := str "m";
     provider := str "p"; inputTokens := 3; outputTokens := 1;
     totalTokens := 4 |}.

Definition sample_remote (apiKey baseUrl slug : jsstring)
    (variables : VarsObject) : ClientOutcome :=
  Resolves sample_response.

Definition rejecting_remote (apiKey baseUrl slug : jsstring)
    (variables : VarsObject) : ClientOutcome :=
  Rejects (ErrorObject (str "Unauthorized")).

Definition sample_data : RunPromptFormData :=
  {| apiKey := str "key"; promptSlug := str "greet" |}.

Definition row (k : String.string) (t : VariableType) (v : jsstring)
  : VariableField :=
  {| key := str k; type := t; value := v; boolValue := false;
     parseError := None |}.

(** Three rows, of which the second and the third do not convert. *)
Definition three_rows : list VariableField :=
  [ row "a" TyNumber (str "1");
    row "n" TyNumber (str "abc");
    row "o" TyObject (str "[1]") ].

Definition sample_state (fields : list VariableField) : PageState :=
  {| promptResponse := Some sample_response;
     feedbackIds := [str "fb-0"]; widgetKey := 1;
     error := Some (str "old error"); isRunning := false;
     variableFields := fields; showRunPrompt := false |}.

(** * Properties *)

(** ** Strings *)

Lemma contains_middle (a s b : jsstring) : contains (a ++ s ++ b) s.
Proof. by exists a, b. Qed.

Lemma contains_app_l (a t s : jsstring) : contains t s -> contains (a ++ t) s.
Proof.
  intros (x & y & ->). exists (a ++ x), y. by rewrite <- app_assoc.
Qed.

Lemma contains_app_r (t b s : jsstring) : contains t s -> contains (t ++ b) s.
Proof.
  intros (x & y & ->). exists x, (y ++ b). by rewrite <- !app_assoc.
Qed.

(** [trim] leaves nothing exactly when every code unit is white space;
    such keys, and the empty one, are the blank keys. *)
Lemma trim_start_whitespace s :
  trim_start s = [] <-> Forall (fun c => is_js_whitespace c = true) s.
Proof.
  induction s as [|c s IH]; simpl; [by split|].
  destruct (is_js_whitespace c) eqn:Hc.
  - rewrite IH. split; [by constructor|by inversion 1].
  - split; [done|]. inversion 1; congruence.
Qed.

Lemma trim_start_idempotent s : trim_start (trim_start s) = trim_start s.
Proof.
  induction s as [|c s IH]; simpl; [done|].
  destruct (is_js_whitespace c) eqn:Hc; [done|]. simpl. by rewrite Hc.
Qed.

Lemma trim_blank k :
  trim k = [] <-> Forall (fun c => is_js_whitespace c = true) k.
Proof.
  unfold trim, trim_end. split.
  - intros H. apply (f_equal (@rev N)) in H. rewrite rev_involutive in H.
    simpl in H. apply trim_start_whitespace, Forall_rev in H.
    rewrite rev_involutive in H.
    apply trim_start_whitespace in H. rewrite trim_start_idempotent in H.
    by apply trim_start_whitespace.
  - intros H%trim_start_whitespace. by rewrite H.
Qed.

(** ** [JSON.parse] *)

Lemma skip_json_ws_length s : (length (skip_json_ws s) <= length s)%nat.
Proof.
  induction s as [|c s IH]; simpl; [lia|].
  destruct (is_json_ws c); simpl; lia.
Qed.

Lemma take_digits_length s ds r :
  take_digits s = (ds, r) -> (length r + length ds = length s)%nat.
Proof.
  revert ds r. induction s as [|c s IH]; intros ds r; simpl.
  - by intros [= <- <-].
  - destruct (is_digit c); [ | by intros [= <- <-] ].
    destruct (take_digits s) as [ds' r']. intros [= <- <-].
    specialize (IH _ _ eq_refl). simpl. lia.
Qed.

Lemma take_sign_length s negative r :
  take_sign s = (negative, r) -> (length r <= length s)%nat.
Proof.
  destruct s as [|c s]; cbn [take_sign]; [intros; by simplify_eq | ].
  destruct (c =? ch "-"); [intros; simplify_eq/=; lia | ].
  destruct (c =? ch "+"); intros; simplify_eq/=; lia.
Qed.

Lemma take_exponent_length s e r :
  take_exponent s = (e, r) -> (length r <= length s)%nat.
Proof.
  destruct s as [|c s]; cbn [take_exponent]; [by intros [= <- <-] | ].
  destruct (_ || _); [ | by intros [= <- <-] ].
  destruct (take_sign s) as [negative r'] eqn:Hsign.
  apply take_sign_length in Hsign.
  destruct (take_digits r') as [ds rest] eqn:Hds.
  apply take_digits_length in Hds.
  destruct ds; intros [= <- <-]; simpl in *; lia.
Qed.

Lemma strip_prefix_length p s r :
  strip_prefix p s = Some r -> length s = (length p + length r)%nat.
Proof.
  revert s. induction p as [|a p IH]; intros s; simpl.
  - by intros [= <-].
  - destruct s as [|b s]; [discriminate|].
    destruct (a =? b); [|discriminate]. intros H%IH. simpl. lia.
Qed.

Lemma parse_string_chars_length s v r :
  parse_string_chars s = Some (v, r) -> (length r < length s)%nat.
Proof.
  remember (length s) as n eqn:Hn. revert s v r Hn.
  induction (lt_wf n) as [n _ IH]. intros s v r ->.
  destruct s as [|c s]; cbn [parse_string_chars]; [discriminate|].
  destruct (c =? 34); [intros [= <- <-]; simpl; lia | ].
  destruct (c =? 92).
  - destruct s as [|e r1]; [discriminate|].
    destruct (e =? ch "u").
    + destruct r1 as [|h1 [|h2 [|h3 [|h4 r2]]]]; try discriminate.
      destruct (hex_value h1), (hex_value h2), (hex_value h3),
        (hex_value h4); try discriminate.
      destruct (parse_string_chars r2) as [[v' rest]|] eqn:H;
        [|discriminate].
      intros [= <- <-].
      assert (length rest < length r2)%nat
        by (eapply (IH (length r2)); [simpl; lia | reflexivity | eassumption]).
      simpl. lia.
    + destruct (simple_escape e); [|discriminate].
      destruct (parse_string_chars r1) as [[v' rest]|] eqn:H;
        [|discriminate].
      intros [= <- <-].
      assert (length rest < length r1)%nat
        by (eapply (IH (length r1)); [simpl; lia | reflexivity | eassumption]).
      simpl. lia.
  - destruct (c <? 32); [discriminate|].
    destruct (parse_string_chars s) as [[v' rest]|] eqn:H; [|discriminate].
    intros [= <- <-].
    assert (length rest < length s)%nat
      by (eapply (IH (length s)); [simpl; lia | reflexivity | eassumption]).
    simpl. lia.
Qed.

Lemma take_minus_length s negative r :
  take_minus s = (negative, r) -> (length r <= length s)%nat.
Proof.
  destruct s as [|c s]; cbn [take_minus]; [intros; by simplify_eq | ].
  destruct (c =? ch "-"); intros; simplify_eq/=; lia.
Qed.

Lemma take_json_int_length s int r :
  take_json_int s = (int, r) -> (length r + length int = length s)%nat.
Proof.
  destruct s as [|c s]; cbn [take_json_int]; [by intros [= <- <-] | ].
  destruct (c =? ch "0"); [intros [= <- <-]; simpl; lia | ].
  apply take_digits_length.
Qed.

Lemma take_json_fraction_length s frac r :
  take_json_fraction s = (frac, r) -> (length r <= length s)%nat.
Proof.
  destruct s as [|c s]; cbn [take_json_fraction]; [by intros [= <- <-] | ].
  destruct (c =? ch "."); [ | by intros [= <- <-] ].
  destruct (take_digits s) as [fs r'] eqn:Hfs.
  apply take_digits_length in Hfs.
  destruct fs; intros [= <- <-]; simpl in *; lia.
Qed.

Lemma parse_json_number_length s n r :
  parse_json_number s = Some (n, r) -> (length r < length s)%nat.
Proof.
  unfold parse_json_number.
  destruct (take_minus s) as [negative s1] eqn:Hsign.
  apply take_minus_length in Hsign.
  destruct (take_json_int s1) as [int r0] eqn:Hint.
  apply take_json_int_length in Hint.
  destruct int as [|d int]; [discriminate|].
  destruct (take_json_fraction r0) as [frac r1] eqn:Hfrac.
  apply take_json_fraction_length in Hfrac.
  destruct (take_exponent r1) as [e r2] eqn:He.
  apply take_exponent_length in He.
  intros [= <- <-]. simpl in *. lia.
Qed.

Lemma parse_scalar_length s v r :
  parse_scalar s = Some (v, r) -> (length r < length s)%nat.
Proof.
  destruct s as [|c s]; cbn [parse_scalar]; [discriminate|].
  destruct (c =? 34).
  { destruct (parse_string_chars s) as [[w rest]|] eqn:H; [|discriminate].
    apply parse_string_chars_length in H. intros [= <- <-]. simpl. lia. }
  destruct (strip_prefix (str "true") (c :: s)) as [r1|] eqn:H1.
  { apply strip_prefix_length in H1. intros [= <- <-].
    rewrite H1. simpl. lia. }
  destruct (strip_prefix (str "false") (c :: s)) as [r2|] eqn:H2.
  { apply strip_prefix_length in H2. intros [= <- <-].
    rewrite H2. simpl. lia. }
  destruct (strip_prefix (str "null") (c :: s)) as [r3|] eqn:H3.
  { apply strip_prefix_length in H3. intros [= <- <-].
    rewrite H3. simpl. lia. }
  destruct (parse_json_number (c :: s)) as [[n rest]|] eqn:H; [|discriminate].
  apply parse_json_number_length in H. by intros [= <- <-].
Qed.

Lemma parse_fuel_enough n :
  fuel_enough (fun n s (_ : unit) => parse_value n s) n
  /\ fuel_enough parse_elements n
  /\ fuel_enough parse_members n.
Proof.
  unfold fuel_enough.
  induction n as [|n (IHv & IHe & IHm)];
    [split; [|split]; intros s a v r; discriminate | ].
  split; [|split].
  - (* parse_value *)
    intros s [] v r. cbn [parse_value]. pose proof (skip_json_ws_length s).
    destruct (skip_json_ws s) as [|c r0] eqn:Hws; [discriminate | ].
    cbn [length] in *.
    destruct (c =? ch "{") eqn:Hobj.
    { pose proof (skip_json_ws_length r0).
      destruct (skip_json_ws r0) as [|c' r'] eqn:Hws'; [discriminate | ].
      cbn [length] in *.
      destruct (c' =? ch "}") eqn:Hclose.
      - intros [= <- <-]. split; [lia|]. intros [|m] Hm; [lia|].
        cbn [parse_value]. by rewrite Hws, Hobj, Hws', Hclose.
      - intros [Hlen Hfuel]%IHm. split; [lia|]. intros [|m] Hm; [lia|].
        cbn [parse_value]. rewrite Hws, Hobj, Hws', Hclose.
        apply Hfuel. lia. }
    destruct (c =? ch "[") eqn:Harr.
    { pose proof (skip_json_ws_length r0).
      destruct (skip_json_ws r0) as [|c' r'] eqn:Hws'; [discriminate | ].
      cbn [length] in *.
      destruct (c' =? ch "]") eqn:Hclose.
      - intros [= <- <-]. split; [lia|]. intros [|m] Hm; [lia|].
        cbn [parse_value]. by rewrite Hws, Hobj, Harr, Hws', Hclose.
      - intros [Hlen Hfuel]%IHe. split; [lia|]. intros [|m] Hm; [lia|].
        cbn [parse_value]. rewrite Hws, Hobj, Harr, Hws', Hclose.
        apply Hfuel. lia. }
    intros Hscalar. pose proof (parse_scalar_length _ _ _ Hscalar).
    cbn [length] in *. split; [lia|]. intros [|m] Hm; [lia|].
    cbn [parse_value]. by rewrite Hws, Hobj, Harr.
  - (* parse_elements *)
    intros s acc v r. cbn [parse_elements].
    destruct (parse_value n s) as [[v1 r1]|] eqn:Hv; [|discriminate].
    destruct (IHv s () v1 r1 Hv) as [Hlen1 Hfuel1].
    pose proof (skip_json_ws_length r1).
    destruct (skip_json_ws r1) as [|c r'] eqn:Hws; [discriminate|].
    cbn [length] in *.
    destruct (c =? ch ",") eqn:Hcomma.
    { intros [Hlen Hfuel]%IHe. split; [lia|]. intros [|m] Hm; [lia|].
      cbn [parse_elements]. rewrite Hfuel1 by lia. rewrite Hws, Hcomma.
      apply Hfuel. lia. }
    destruct (c =? ch "]") eqn:Hclose; [|discriminate].
    intros [= <- <-]. split; [lia|]. intros [|m] Hm; [lia|].
    cbn [parse_elements]. rewrite Hfuel1 by lia.
    by rewrite Hws, Hcomma, Hclose.
  - (* parse_members *)
    intros s acc v r. cbn [parse_members].
    pose proof (skip_json_ws_length s).
    destruct (skip_json_ws s) as [|q r0] eqn:Hws; [discriminate|].
    destruct (q =? 34) eqn:Hq; [|discriminate].
    destruct (parse_string_chars r0) as [[k r1]|] eqn:Hk; [|discriminate].
    pose proof (parse_string_chars_length _ _ _ Hk).
    pose proof (skip_json_ws_length r1).
    destruct (skip_json_ws r1) as [|c1 r2] eqn:Hws1; [discriminate|].
    destruct (c1 =? ch ":") eqn:Hcolon; [|discriminate].
    destruct (parse_value n r2) as [[v1 r3]|] eqn:Hv; [|discriminate].
    destruct (IHv r2 () v1 r3 Hv) as [Hlen1 Hfuel1].
    pose proof (skip_json_ws_length r3).
    destruct (skip_json_ws r3) as [|c3 r4] eqn:Hws3; [discriminate|].
    cbn [length] in *.
    destruct (c3 =? ch ",") eqn:Hcomma.
    { intros [Hlen Hfuel]%IHm. split; [lia|]. intros [|m] Hm; [lia|].
      cbn [parse_members]. rewrite Hws, Hq, Hk, Hws1, Hcolon.
      rewrite Hfuel1 by lia. rewrite Hws3, Hcomma. apply Hfuel. lia. }
    destruct (c3 =? ch "}") eqn:Hclose; [|discriminate].
    intros [= <- <-]. split; [lia|]. intros [|m] Hm; [lia|].
    cbn [parse_members]. rewrite Hws, Hq, Hk, Hws1, Hcolon.
    rewrite Hfuel1 by lia. by rewrite Hws3, Hcomma, Hclose.
Qed.

(** [JSON_parse] never fails for want of fuel: a value that some amount
    of fuel finds is found with the fuel [JSON_parse] gives. *)
Lemma parse_value_fuel n s v r :
  parse_value n s = Some (v, r) ->
  parse_value (S (length s)) s = Some (v, r).
Proof.
  intros H. destruct (parse_fuel_enough n) as [Hv _].
  destruct (Hv s () v r H) as [_ Hfuel]. apply Hfuel. lia.
Qed.

(** ** Conversion of one value *)

Section Properties.

Context (msg : jsstring -> jsstring).
Context (url : option jsstring).
Context (remote : jsstring -> jsstring -> jsstring -> VarsObject
                  -> ClientOutcome).

(** A conversion only ever throws [Error] objects. *)
Lemma parseVariableValue_throws_Error t v b e :
  parseVariableValue msg t v b = Throw e -> exists m, e = ErrorObject m.
Proof.
  destruct t; simpl; try discriminate.
  - destruct (isNaN _); [|discriminate]. intros [= <-]. eauto.
  - unfold try_catch. destruct (_ ≫= _); [discriminate|].
    intros [= <-]. eauto.
  - unfold try_catch. destruct (_ ≫= _); [discriminate|].
    intros [= <-]. eauto.
Qed.

(** Object conversion returns exactly the parsed values that are not
    arrays and whose [typeof] is ["object"]: the objects, and [null]. *)
Lemma parseVariableValue_object_Normal text b v :
  parseVariableValue msg TyObject text b = Normal v <->
  JSON_parse text = Some v /\ ((exists props, v = JObject props) \/ v = JNull).
Proof.
  simpl. unfold JSON_parse_throwing, try_catch.
  destruct (JSON_parse text) as [w|]; simpl.
  - destruct w; simpl; split; try discriminate;
      try (intros [[= <-] [[? [=]]|[=]]]);
      try (intros [= <-]); eauto.
  - split; [discriminate|]. by intros [[=] _].
Qed.

(** When it fails on a text that is valid JSON, the message says the value
    must be an object. *)
Lemma parseVariableValue_object_not_object text b w :
  JSON_parse text = Some w ->
  (forall props, w <> JObject props) -> w <> JNull ->
  parseVariableValue msg TyObject text b =
    Throw (ErrorObject (str "Invalid object JSON: Value must be an object")).
Proof.
  intros Hp Ho Hn. simpl. unfold JSON_parse_throwing. rewrite Hp.
  destruct w; simpl; try reflexivity; [congruence|].
  by destruct (Ho properties).
Qed.

Lemma parseVariableValue_object_invalid text b :
  JSON_parse text = None ->
  parseVariableValue msg TyObject text b =
    Throw (ErrorObject (str "Invalid object JSON: " ++ msg text)).
Proof.
  intros Hp. simpl. unfold JSON_parse_throwing. by rewrite Hp.
Qed.

Example object_conversion_a1 b :
  parseVariableValue msg TyObject (dq "{'a':1}") b =
    Normal (JObject [(str "a", JNumber (Finite false 1))]).
Proof. reflexivity. Qed.

Example object_conversion_array b :
  exists m, parseVariableValue msg TyObject (str "[1,2]") b
            = Throw (ErrorObject m)
            /\ contains m (str "must be an object").
Proof.
  eexists. split; [reflexivity|].
  by exists (str "Invalid object JSON: Value "), [].
Qed.

Example object_conversion_5 b :
  exists m, parseVariableValue msg TyObject (str "5") b
            = Throw (ErrorObject m)
            /\ contains m (str "must be an object").
Proof.
  eexists. split; [reflexivity|].
  by exists (str "Invalid object JSON: Value "), [].
Qed.

(** C1, at the text [null]: it is valid JSON and denotes no object, yet
    object conversion does not fail on it: [typeof null] is ["object"],
    so the guard lets it through and [null] is returned as the converted
    value. *)
Theorem object_conversion_accepts_null b :
  JSON_parse (str "null") = Some JNull
  /\ is_json_object JNull = false
  /\ parseVariableValue msg TyObject (str "null") b = Normal JNull.
Proof. by repeat split. Qed.

(** Number conversion hands back whatever [parseFloat] reads, unless
    that is [NaN]. *)
Lemma parseVariableValue_number text b :
  parseVariableValue msg TyNumber text b =
    match parseFloat text with
    | NaN => Throw (ErrorObject (str "Invalid number: " ++ text))
    | n => Normal (JNumber n)
    end.
Proof. simpl. by destruct (parseFloat text). Qed.

(** ** Editing a row *)

(** C7: changing the type of the row at [index] puts the new type's
    default in its value (the empty string for string, number and boolean,
    ["[]"] for list, ["{}"] for object), switches [boolValue] off for
    boolean, and clears [parseError], whatever the row held before. *)
Theorem type_change_resets_value
    (fields : list VariableField) index old newType :
  fields !! index = Some old ->
  exists new,
    updateVariableField index (upd_type newType) fields
      = Some (<[index := new]> fields)
    /\ type new = newType
    /\ key new = key old
    /\ value new = match newType with
                   | TyList => str "[]"
                   | TyObject => str "{}"
                   | TyString | TyNumber | TyBoolean => []
                   end
    /\ boolValue new = match newType with
                       | TyBoolean => false
                       | _ => boolValue old
                       end
    /\ parseError new = None.
Proof.
  intros Hrow. exists (update_row (upd_type newType) old).
  unfold updateVariableField. rewrite Hrow.
  by destruct newType.
Qed.

(** C8: a new raw value is always stored.  On a list or object row it is
    parsed as JSON, and [parseError] becomes ["Invalid JSON"] when that
    fails and is cleared when it succeeds; on a string, number or boolean
    row nothing is validated and [parseError] stays as it was. *)
Theorem value_edit_flags_invalid_json
    (fields : list VariableField) index old v :
  fields !! index = Some old ->
  exists new,
    updateVariableField index (upd_value v) fields
      = Some (<[index := new]> fields)
    /\ value new = v
    /\ type new = type old /\ key new = key old
    /\ boolValue new = boolValue old
    /\ (type old = TyList \/ type old = TyObject ->
        parseError new = match JSON_parse v with
                         | Some _ => None
                         | None => Some (str "Invalid JSON")
                         end)
    /\ (type old = TyString \/ type old = TyNumber \/ type old = TyBoolean ->
        parseError new = parseError old).
Proof.
  intros Hrow. exists (update_row (upd_value v) old).
  unfold updateVariableField. rewrite Hrow. split; [done|].
  unfold update_row.
  destruct old as [k t v0 bv pe]; simpl.
  destruct (decide (t = TyList \/ t = TyObject)) as [Hjson | Hplain].
  - destruct (JSON_parse v); simpl; repeat split; try done;
      try (intros [-> | [-> | ->]]; destruct Hjson; discriminate).
  - by repeat split.
Qed.

(** C10: a row just switched to list or object converts without any
    further edit, to the empty array or the empty object, so the loop of
    [runPrompt] gets past it. *)
Theorem fresh_list_or_object_row_converts
    (fields fields' : list VariableField) index newType :
  newType = TyList \/ newType = TyObject ->
  updateVariableField index (upd_type newType) fields = Some fields' ->
  exists new,
    fields' !! index = Some new
    /\ parseVariableValue msg (type new) (value new) (boolValue new)
       = Normal (match newType with TyList => JArray [] | _ => JObject [] end)
    /\ forall rest variables,
         build_variables msg (new :: rest) variables
         = build_variables msg rest
             (if truthy_string (trim (key new))
              then object_set (trim (key new))
                     (match newType with
                      | TyList => JArray [] | _ => JObject [] end)
                     variables
              else variables).
Proof.
  intros Hty. unfold updateVariableField.
  destruct (fields !! index) as [old|] eqn:Hrow; [|discriminate].
  intros [= <-]. exists (update_row (upd_type newType) old).
  split.
  { apply list_lookup_insert_eq. by eapply lookup_lt_Some. }
  destruct Hty as [-> | ->].
  - split; [reflexivity|]. intros rest variables. simpl.
    by destruct (truthy_string _).
  - split; [reflexivity|]. intros rest variables. simpl.
    by destruct (truthy_string _).
Qed.

(** ** The conversion loop *)

Lemma build_variables_blank f rest o :
  trim (key f) = [] ->
  build_variables msg (f :: rest) o = build_variables msg rest o.
Proof. intros Hk. simpl. by rewrite Hk. Qed.

Lemma build_variables_converted f rest o v :
  trim (key f) <> [] ->
  parseVariableValue msg (type f) (value f) (boolValue f) = Normal v ->
  build_variables msg (f :: rest) o
  = build_variables msg rest (object_set (trim (key f)) v o).
Proof.
  intros Hk Hv. cbn [build_variables].
  destruct (trim (key f)); [done|]. by rewrite Hv.
Qed.

Lemma build_variables_failed f rest o m :
  trim (key f) <> [] ->
  parseVariableValue msg (type f) (value f) (boolValue f)
  = Throw (ErrorObject m) ->
  build_variables msg (f :: rest) o
  = Throw (ErrorObject (variable_error_message (key f) m)).
Proof.
  intros Hk Hv. cbn [build_variables].
  destruct (trim (key f)); [done|]. by rewrite Hv.
Qed.

(** The loop only ever throws [Error] objects. *)
Lemma build_variables_throws_Error fields o e :
  build_variables msg fields o = Throw e -> exists m, e = ErrorObject m.
Proof.
  revert o. induction fields as [|f rest IH]; intros o; [discriminate|].
  cbn [build_variables]. destruct (truthy_string _); [|apply IH].
  destruct (parseVariableValue _ _ _ _); simpl; [apply IH|].
  intros [= <-]. eauto.
Qed.

(** Rows with a blank key take no part in the loop. *)
Lemma build_variables_skips_blank fields o :
  build_variables msg fields o
  = build_variables msg
      (filter (fun f => trim (key f) <> []) fields) o.
Proof.
  revert o. induction fields as [|f rest IH]; intros o; [done|].
  rewrite filter_cons. case_decide as Hk.
  - cbn [build_variables]. destruct (truthy_string _); [|apply IH].
    destruct (try_catch _ _); simpl; [apply IH|done].
  - by rewrite build_variables_blank.
Qed.

(** Rows that pass lead the loop on to the rows after them. *)
Lemma build_variables_passes pre rest o :
  Forall (passes msg) pre ->
  exists o', build_variables msg (pre ++ rest) o
             = build_variables msg rest o'.
Proof.
  intros Hpre. revert o.
  induction Hpre as [|f pre [Hk | [v Hv]] _ IH]; intros o.
  - by exists o.
  - rewrite <- app_comm_cons, build_variables_blank by done. apply IH.
  - rewrite <- app_comm_cons.
    destruct (decide (trim (key f) = [])) as [Hk|Hk].
    + rewrite build_variables_blank by done. apply IH.
    + erewrite build_variables_converted by done. apply IH.
Qed.

(** A list with a failing row splits at its first failing row. *)
Lemma first_failing_row fields :
  (exists f, f ∈ fields /\ trim (key f) <> [] /\
     exists e, parseVariableValue msg (type f) (value f) (boolValue f)
               = Throw e) ->
  exists pre f post m,
    fields = pre ++ f :: post
    /\ Forall (passes msg) pre
    /\ trim (key f) <> []
    /\ parseVariableValue msg (type f) (value f) (boolValue f)
       = Throw (ErrorObject m).
Proof.
  induction fields as [|g rest IH]; intros (f & Hin & Hk & e & He).
  { by apply elem_of_nil in Hin. }
  destruct (decide (trim (key g) = [])) as [Hg|Hg].
  - destruct IH as (pre & f' & post & m & -> & Hpre & Hk' & Hf').
    { exists f. repeat split; eauto.
      apply elem_of_cons in Hin as [->|Hin]; [done|done]. }
    exists (g :: pre), f', post, m. repeat split; try done.
    constructor; [by left|done].
  - destruct (parseVariableValue msg (type g) (value g) (boolValue g))
      as [v|e'] eqn:Hgv.
    + destruct IH as (pre & f' & post & m & -> & Hpre & Hk' & Hf').
      { exists f. repeat split; eauto.
        apply elem_of_cons in Hin as [->|Hin]; [congruence|done]. }
      exists (g :: pre), f', post, m. repeat split; try done.
      constructor; [right; eauto|done].
    + destruct (parseVariableValue_throws_Error _ _ _ _ Hgv) as [m ->].
      exists [], g, rest, m. repeat split; try done.
Qed.

(** C4: when some row with a non-blank key fails to convert, the loop
    throws one error, for the first such row in authored order: its
    message holds that row's key and the message of the failed
    conversion, and it is the same whatever rows come after, which are
    never reached. *)
Theorem conversion_stops_at_first_failure fields :
  (exists f, f ∈ fields /\ trim (key f) <> [] /\
     exists e, parseVariableValue msg (type f) (value f) (boolValue f)
               = Throw e) ->
  exists pre f post m,
    fields = pre ++ f :: post
    /\ Forall (passes msg) pre
    /\ trim (key f) <> []
    /\ parseVariableValue msg (type f) (value f) (boolValue f)
       = Throw (ErrorObject m)
    /\ build_variables msg fields empty_object
       = Throw (ErrorObject (variable_error_message (key f) m))
    /\ contains (variable_error_message (key f) m) (key f)
    /\ contains (variable_error_message (key f) m) m
    /\ forall post',
         build_variables msg (pre ++ f :: post') empty_object
         = Throw (ErrorObject (variable_error_message (key f) m)).
Proof.
  intros Hfail.
  destruct (first_failing_row fields Hfail)
    as (pre & f & post & m & -> & Hpre & Hk & Hf).
  assert (forall post',
            build_variables msg (pre ++ f :: post') empty_object
            = Throw (ErrorObject (variable_error_message (key f) m)))
    as Hall.
  { intros post'.
    destruct (build_variables_passes pre (f :: post') empty_object Hpre)
      as [o' ->].
    by apply build_variables_failed. }
  exists pre, f, post, m. repeat split; try done.
  - by exists (str "Error parsing variable " ++ quote),
              (quote ++ str ": " ++ m).
  - exists (str "Error parsing variable " ++ quote ++ key f ++ quote
            ++ str ": "), [].
    unfold variable_error_message.
    by rewrite app_nil_r, <- !app_assoc.
Qed.

(** ** What ends up in [variables] *)

Lemma set_proto_accessor_own v o : own (set_proto_accessor v o) = own o.
Proof. by destruct v. Qed.

Lemma object_set_lookup_ne k k' v o :
  k <> k' -> own (object_set k' v o) !! k = own o !! k.
Proof.
  intros Hne. unfold object_set.
  destruct (_ && _); [by rewrite set_proto_accessor_own|].
  by apply lookup_insert_ne.
Qed.

Lemma object_set_lookup_eq k v o :
  k <> proto_key -> own (object_set k v o) !! k = Some v.
Proof.
  intros Hne. unfold object_set.
  rewrite bool_decide_eq_false_2 by done. apply lookup_insert_eq.
Qed.

(** Rows with other keys leave the property [k] alone. *)
Lemma build_variables_lookup_other k fields o o' :
  Forall (fun g => trim (key g) <> k) fields ->
  build_variables msg fields o = Normal o' ->
  own o' !! k = own o !! k.
Proof.
  intros Hother. revert o.
  induction Hother as [|g rest Hg _ IH]; intros o; [by intros [= <-]|].
  cbn [build_variables]. destruct (truthy_string _); [|apply IH].
  destruct (parseVariableValue _ _ _ _) as [v|e]; simpl; [|discriminate].
  intros Hrest. rewrite (IH _ Hrest). by apply object_set_lookup_ne.
Qed.

Lemma build_variables_app pre post o :
  build_variables msg (pre ++ post) o
  = build_variables msg pre o ≫= build_variables msg post.
Proof.
  revert o. induction pre as [|f pre IH]; intros o; [done|].
  rewrite <- app_comm_cons. cbn [build_variables].
  destruct (truthy_string _); [|apply IH].
  destruct (try_catch _ _); simpl; [apply IH|done].
Qed.

(** For every key but [__proto__], the last row with that key decides
    the property: when the loop completes, the object holds under it the
    converted value of that row. *)
Lemma last_row_wins pre f post k o o' :
  trim (key f) = k -> k <> [] -> k <> proto_key ->
  Forall (fun g => trim (key g) <> k) post ->
  build_variables msg (pre ++ f :: post) o = Normal o' ->
  exists v,
    parseVariableValue msg (type f) (value f) (boolValue f) = Normal v
    /\ own o' !! k = Some v.
Proof.
  intros Hk Hne Hproto Hpost. rewrite build_variables_app.
  destruct (build_variables msg pre o) as [o1|];
    cbn [mbind completion_bind]; [|discriminate].
  destruct (parseVariableValue msg (type f) (value f) (boolValue f))
    as [v|e] eqn:Hv.
  - rewrite (build_variables_converted _ _ _ v) by congruence.
    intros Hrest. exists v. split; [done|].
    rewrite (build_variables_lookup_other _ _ _ _ Hpost Hrest), Hk.
    by apply object_set_lookup_eq.
  - destruct (parseVariableValue_throws_Error _ _ _ _ Hv) as [m ->].
    rewrite (build_variables_failed _ _ _ m) by congruence. discriminate.
Qed.

(** C3, at two rows that share the key [__proto__]: the loop completes,
    and the object has no property of that name, so the value of the last
    row is not in it.  The assignment [variables["__proto__"] = v] runs the
    setter inherited from [Object.prototype] instead of creating a
    property. *)
Theorem proto_key_rows_are_lost :
  exists variables,
    build_variables msg
      [ row "__proto__" TyString (str "first");
        row "__proto__" TyString (str "last") ] empty_object
    = Normal variables
    /\ own variables !! str "__proto__" = None
    /\ variables = empty_object.
Proof. exists empty_object. repeat split; reflexivity. Qed.

(** C2 as amended: number conversion fails exactly when [parseFloat]
    reads [NaN], and otherwise returns what [parseFloat] read, an
    infinity included; ["42"] gives 42, ["3.14"] gives 3.14, and ["abc"]
    fails with a message that [runPrompt] reports under the variable's
    key. *)
Theorem number_conversion_fails_iff_NaN :
  (forall text b,
     ((exists e, parseVariableValue msg TyNumber text b = Throw e)
      <-> parseFloat text = NaN)
     /\ ((exists e, parseVariableValue msg TyNumber text b = Throw e)
         \/ parseVariableValue msg TyNumber text b
            = Normal (JNumber (parseFloat text))))
  /\ (forall b, parseVariableValue msg TyNumber (str "42") b
                = Normal (JNumber (Finite false 42)))
  /\ (forall b, parseVariableValue msg TyNumber (str "3.14") b
                = Normal (JNumber (Finite false 3.14)))
  /\ (forall b, parseVariableValue msg TyNumber (str "abc") b
                = Throw (ErrorObject (str "Invalid number: abc")))
  /\ (forall k b o,
        trim k <> [] ->
        exists m,
          build_variables msg
            [ {| key := k; type := TyNumber; value := str "abc";
                 boolValue := b; parseError := None |} ] o
          = Throw (ErrorObject m)
          /\ contains m k).
Proof.
  split; [|repeat split; try done].
  - intros text b. rewrite parseVariableValue_number.
    destruct (parseFloat text); split; eauto;
      split; try done; try (by intros [e [=]]); eauto.
  - intros k b o Hk. eexists. split.
    + by apply (build_variables_failed _ _ _ (str "Invalid number: abc")).
    + by exists (str "Error parsing variable " ++ quote),
                (quote ++ str ": " ++ str "Invalid number: abc").
Qed.

(** ** The run *)

Lemma apply_effects_app s t1 t2 :
  apply_effects s (t1 ++ t2) = apply_effects (apply_effects s t1) t2.
Proof. apply fold_left_app. Qed.

(** The trace of a run whose [try] block throws [err] after the effects
    [body]. *)
Lemma runPrompt_thrown data s body err :
  runPrompt_try msg url remote data (variableFields s) = (body, Throw err) ->
  runPrompt msg url remote data s
  = runPrompt_reset ++ body
    ++ [ setError (Some (message_or err (str "An unknown error occurred")));
         setIsRunning false ].
Proof. unfold runPrompt. by intros ->. Qed.

(** C5: when the conversion of the rows fails, or it succeeds and no base
    URL is configured, a run consists of setter calls only (the client is
    neither built nor called), it leaves the conversion message, or the
    configuration message in the second case, in [error], and it leaves
    [isRunning] false. *)
Theorem failed_setup_never_calls_client data s :
  let trace := runPrompt msg url remote data s in
  let s' := after_runPrompt msg url remote data s in
  (forall e,
     build_variables msg (variableFields s) empty_object = Throw e ->
     exists m,
       e = ErrorObject m
       /\ trace = runPrompt_reset ++ [setError (Some m); setIsRunning false]
       /\ Forall (fun eff => is_client_effect eff = false) trace
       /\ error s' = Some m
       /\ isRunning s' = false)
  /\ (forall variables,
        build_variables msg (variableFields s) empty_object
        = Normal variables ->
        url = None \/ url = Some [] ->
        let m := str "NEXT_PUBLIC_EXTERNAL_API_URL is not configured" in
        trace = runPrompt_reset ++ [setError (Some m); setIsRunning false]
        /\ Forall (fun eff => is_client_effect eff = false) trace
        /\ error s' = Some m
        /\ isRunning s' = false).
Proof.
  intros trace s'. split.
  - intros e He.
    destruct (build_variables_throws_Error _ _ _ He) as [m ->].
    exists m. split; [done|].
    assert (trace = runPrompt_reset ++ [setError (Some m); setIsRunning false])
      as Htrace.
    { apply (runPrompt_thrown data s [] (ErrorObject m)).
      unfold runPrompt_try. by rewrite He. }
    subst s'. unfold after_runPrompt. fold trace. rewrite Htrace.
    repeat split; try done. by repeat constructor.
  - intros variables Hv Hurl m.
    assert (trace = runPrompt_reset ++ [setError (Some m); setIsRunning false])
      as Htrace.
    { apply (runPrompt_thrown data s [] (ErrorObject m)).
      unfold runPrompt_try. rewrite Hv. by destruct Hurl as [-> | ->]. }
    subst s'. unfold after_runPrompt. fold trace. rewrite Htrace.
    repeat split; try done. by repeat constructor.
Qed.

(** C6: whatever the state, a run opens with the setter calls that clear
    the response, the error and the feedback ids (and the widget key);
    what follows them is the only part that depends on the rows, the
    configuration and the remote.  When the run fails, at conversion,
    configuration or in the client, the state it ends in has no response,
    the one stored before included, next to the error. *)
Theorem run_discards_previous_response data s :
  (exists rest,
     runPrompt msg url remote data s = runPrompt_reset ++ rest
     /\ Forall (fun eff => is_client_effect eff = false) runPrompt_reset)
  /\ (let s0 := apply_effects s runPrompt_reset in
      promptResponse s0 = None /\ error s0 = None /\ feedbackIds s0 = [])
  /\ (forall body err,
        runPrompt_try msg url remote data (variableFields s)
        = (body, Throw err) ->
        let s' := after_runPrompt msg url remote data s in
        promptResponse s' = None
        /\ feedbackIds s' = []
        /\ error s'
           = Some (message_or err (str "An unknown error occurred"))
        /\ isRunning s' = false).
Proof.
  split; [|split; [done|]].
  - unfold runPrompt. destruct (runPrompt_try _ _ _ _ _) as [body outcome].
    eexists. split; [reflexivity|]. by repeat constructor.
  - intros body err Htry s'. subst s'. unfold after_runPrompt.
    rewrite (runPrompt_thrown _ _ _ _ Htry).
    revert Htry. unfold runPrompt_try.
    destruct (build_variables _ _ _) as [variables|e].
    + destruct url as [[|c u]|]; try (by intros [= <- <-]).
      destruct (remote _ _ _ _); intros [= <- <-]; done.
    + by intros [= <- <-].
Qed.

(** The state after a run that gets its response. *)
Lemma runPrompt_resolved data s variables c u result :
  build_variables msg (variableFields s) empty_object = Normal variables ->
  url = Some (c :: u) ->
  remote (apiKey data) (c :: u) (promptSlug data) variables
  = Resolves result ->
  let s' := after_runPrompt msg url remote data s in
  promptResponse s' = Some result /\ feedbackIds s' = []
  /\ widgetKey s' = 0 /\ error s' = None /\ isRunning s' = false.
Proof.
  intros Hv Hu Hr. unfold after_runPrompt, runPrompt, runPrompt_try.
  by rewrite Hv, Hu, Hr.
Qed.

Lemma onSuccess_all ids s :
  let s' := foldl (fun st id => onSuccess id st) s ids in
  feedbackIds s' = feedbackIds s ++ ids
  /\ widgetKey s' = widgetKey s + N.of_nat (length ids)
  /\ promptResponse s' = promptResponse s.
Proof.
  revert s. induction ids as [|id ids IH]; intros s; simpl.
  - rewrite app_nil_r. repeat split. lia.
  - destruct (IH (onSuccess id s)) as (-> & -> & ->). simpl.
    rewrite <- app_assoc. repeat split. lia.
Qed.

(** C9: each success callback appends its feedback id to [feedbackIds]
    and adds one to [widgetKey], so a sequence of them appends all their
    ids in order and moves the key by their number; after a run that got
    its response, two callbacks leave two ids, and the key goes through
    0, 1 and 2. *)
Theorem feedback_success_appends_and_remounts data s variables c u result :
  build_variables msg (variableFields s) empty_object = Normal variables ->
  url = Some (c :: u) ->
  remote (apiKey data) (c :: u) (promptSlug data) variables
  = Resolves result ->
  let s0 := after_runPrompt msg url remote data s in
  promptResponse s0 = Some result
  /\ (forall st id,
        feedbackIds (onSuccess id st) = feedbackIds st ++ [id]
        /\ widgetKey (onSuccess id st) = widgetKey st + 1
        /\ widgetKey (onSuccess id st) <> widgetKey st
        /\ promptResponse (onSuccess id st) = promptResponse st)
  /\ (forall ids,
        let sn := foldl (fun st id => onSuccess id st) s0 ids in
        feedbackIds sn = ids
        /\ widgetKey sn = N.of_nat (length ids)
        /\ promptResponse sn = Some result)
  /\ (forall id1 id2,
        let s1 := onSuccess id1 s0 in
        let s2 := onSuccess id2 s1 in
        feedbackIds s2 = [id1; id2]
        /\ length (feedbackIds s2) = 2%nat
        /\ widgetKey s0 = 0 /\ widgetKey s1 = 1 /\ widgetKey s2 = 2).
Proof.
  intros Hv Hu Hr s0.
  destruct (runPrompt_resolved data s variables c u result Hv Hu Hr)
    as (Hresp & Hids & Hkey & _ & _).
  fold s0 in Hresp, Hids, Hkey.
  split; [done|]. split; [|split].
  - intros st id. repeat split. simpl. lia.
  - intros ids sn. subst sn.
    destruct (onSuccess_all ids s0) as (-> & -> & ->).
    by rewrite Hids, Hkey, Hresp.
  - intros id1 id2 s1 s2. subst s1 s2. simpl. rewrite Hids, Hkey.
    by repeat split.
Qed.

End Properties.

(** ** The properties at concrete inputs *)

Example parseFloat_42 : parseFloat (str "42") = Finite false 42.
Proof. reflexivity. Qed.

Example parseFloat_prefix : parseFloat (str "  -2.5e3 apples") = Finite true 2500.
Proof. reflexivity. Qed.

Example parseFloat_overflow : parseFloat (str "1e999") = Infinity false.
Proof. reflexivity. Qed.

Example list_conversion_123 :
  parseVariableValue sample_message TyList (str "[1,2,3]") false
  = Normal (JArray [ JNumber (Finite false 1); JNumber (Finite false 2);
                     JNumber (Finite false 3) ]).
Proof. reflexivity. Qed.

Example list_conversion_object :
  parseVariableValue sample_message TyList (str "{}") false
  = Throw (ErrorObject (str "Invalid list JSON: Value must be an array")).
Proof. reflexivity. Qed.

Example list_conversion_not_json :
  parseVariableValue sample_message TyList (str "not json") false
  = Throw (ErrorObject (str "Invalid list JSON: Unexpected token in JSON")).
Proof. reflexivity. Qed.

(** C2 as stated fails at the text [Infinity]: [parseFloat] reads an
    infinity, which is not a finite number, and the conversion returns it
    instead of failing. *)
Lemma number_conversion_accepts_Infinity :
  isFinite (parseFloat (str "Infinity")) = false
  /\ parseVariableValue sample_message TyNumber (str "Infinity") false
     = Normal (JNumber (Infinity false))
  /\ ~ (forall text b,
          (exists e, parseVariableValue sample_message TyNumber text b
                     = Throw e)
          <-> isFinite (parseFloat text) = false).
Proof.
  repeat split. intros Hclaim.
  destruct (Hclaim (str "Infinity") false) as [_ Hfails].
  by destruct Hfails as [e He].
Qed.

Lemma number_conversion_fails_iff_NaN_witness :
  trim (str "count") <> []
  /\ exists m,
       build_variables sample_message
         [ {| key := str "count"; type := TyNumber; value := str "abc";
              boolValue := false; parseError := None |} ] empty_object
       = Throw (ErrorObject m)
       /\ contains m (str "count").
Proof.
  assert (trim (str "count") <> []) as Hk by (vm_compute; discriminate).
  split; [exact Hk|].
  destruct (number_conversion_fails_iff_NaN sample_message)
    as (_ & _ & _ & _ & Hkey).
  exact (Hkey (str "count") false empty_object Hk).
Defined.

(** A blank key hides even a value that would not convert. *)
Example blank_key_row_skipped :
  build_variables sample_message
    [ row "   " TyNumber (str "abc"); row "n" TyNumber (str "7") ]
    empty_object
  = Normal (object_set (str "n") (JNumber (Finite false 7)) empty_object).
Proof. reflexivity. Qed.

Example duplicate_key_last_wins :
  exists variables,
    build_variables sample_message
      [ row "n" TyNumber (str "1"); row " n " TyString (str "two") ]
      empty_object
    = Normal variables
    /\ own variables !! str "n" = Some (JString (str "two")).
Proof. eexists. split; [reflexivity|]. apply lookup_insert_eq. Qed.

(** An object written under [__proto__] becomes the prototype. *)
Example proto_key_object_row :
  build_variables sample_message
    [ row "__proto__" TyObject (dq "{'a':1}") ] empty_object
  = Normal {| own := ∅;
              proto := ValuePrototype
                         (JObject [(str "a", JNumber (Finite false 1))]) |}.
Proof. reflexivity. Qed.

Example three_rows_error :
  build_variables sample_message three_rows empty_object
  = Throw (ErrorObject (dq "Error parsing variable 'n': Invalid number: abc")).
Proof. reflexivity. Qed.

Lemma conversion_stops_at_first_failure_witness :
  (exists f, f ∈ three_rows /\ trim (key f) <> [] /\
     exists e, parseVariableValue sample_message (type f) (value f)
                 (boolValue f) = Throw e)
  /\ exists pre f post m,
       three_rows = pre ++ f :: post
       /\ Forall (passes sample_message) pre
       /\ trim (key f) <> []
       /\ parseVariableValue sample_message (type f) (value f) (boolValue f)
          = Throw (ErrorObject m)
       /\ build_variables sample_message three_rows empty_object
          = Throw (ErrorObject (variable_error_message (key f) m))
       /\ contains (variable_error_message (key f) m) (key f)
       /\ contains (variable_error_message (key f) m) m
       /\ forall post',
            build_variables sample_message (pre ++ f :: post') empty_object
            = Throw (ErrorObject (variable_error_message (key f) m)).
Proof.
  assert (exists f, f ∈ three_rows /\ trim (key f) <> [] /\
            exists e, parseVariableValue sample_message (type f) (value f)
                        (boolValue f) = Throw e) as Hfail.
  { exists (row "o" TyObject (str "[1]")). split; [|split].
    - unfold three_rows. do 2 apply list_elem_of_further.
      apply list_elem_of_here.
    - vm_compute. discriminate.
    - eexists. reflexivity. }
  split; [exact Hfail|].
  exact (conversion_stops_at_first_failure sample_message three_rows Hfail).
Defined.

Lemma failed_setup_never_calls_client_witness :
  (build_variables sample_message three_rows empty_object
   = Throw (ErrorObject
              (dq "Error parsing variable 'n': Invalid number: abc"))
   /\ Forall (fun eff => is_client_effect eff = false)
        (runPrompt sample_message sample_url sample_remote sample_data
           (sample_state three_rows))
   /\ error (after_runPrompt sample_message sample_url sample_remote
               sample_data (sample_state three_rows))
      = Some (dq "Error parsing variable 'n': Invalid number: abc")
   /\ isRunning (after_runPrompt sample_message sample_url sample_remote
                   sample_data (sample_state three_rows)) = false)
  /\ (build_variables sample_message [row "a" TyNumber (str "1")]
        empty_object
      = Normal (object_set (str "a") (JNumber (Finite false 1)) empty_object)
      /\ Forall (fun eff => is_client_effect eff = false)
           (runPrompt sample_message None sample_remote sample_data
              (sample_state [row "a" TyNumber (str "1")]))
      /\ error (after_runPrompt sample_message None sample_remote
                  sample_data (sample_state [row "a" TyNumber (str "1")]))
         = Some (str "NEXT_PUBLIC_EXTERNAL_API_URL is not configured")
      /\ isRunning (after_runPrompt sample_message None sample_remote
                      sample_data
                      (sample_state [row "a" TyNumber (str "1")])) = false).
Proof.
  split.
  - assert (build_variables sample_message
              (variableFields (sample_state three_rows)) empty_object
            = Throw (ErrorObject
                       (dq "Error parsing variable 'n': Invalid number: abc")))
      as Hfail by reflexivity.
    split; [exact Hfail|].
    destruct (failed_setup_never_calls_client sample_message sample_url
                sample_remote sample_data (sample_state three_rows))
      as [Hconv _].
    destruct (Hconv _ Hfail) as (m & Hm & _ & Hnone & Herr & Hrun).
    injection Hm as <-. by repeat split.
  - assert (build_variables sample_message
              (variableFields (sample_state [row "a" TyNumber (str "1")]))
              empty_object
            = Normal (object_set (str "a") (JNumber (Finite false 1))
                        empty_object))
      as Hok by reflexivity.
    split; [exact Hok|].
    destruct (failed_setup_never_calls_client sample_message None
                sample_remote sample_data
                (sample_state [row "a" TyNumber (str "1")]))
      as [_ Hconf].
    destruct (Hconf _ Hok (or_introl eq_refl)) as (_ & Hnone & Herr & Hrun).
    by repeat split.
Defined.

Lemma run_discards_previous_response_witness :
  promptResponse (sample_state three_rows) = Some sample_response
  /\ runPrompt_try sample_message sample_url rejecting_remote sample_data
       [row "a" TyNumber (str "1")]
     = ([ new_CobblAdminClient (str "key") (str "https://api.example.test");
          client_runPrompt (str "greet")
            (object_set (str "a") (JNumber (Finite false 1)) empty_object) ],
        Throw (ErrorObject (str "Unauthorized")))
  /\ promptResponse
       (after_runPrompt sample_message sample_url rejecting_remote
          sample_data (sample_state [row "a" TyNumber (str "1")])) = None
  /\ error
       (after_runPrompt sample_message sample_url rejecting_remote
          sample_data (sample_state [row "a" TyNumber (str "1")]))
     = Some (str "Unauthorized").
Proof.
  split; [reflexivity|].
  assert (runPrompt_try sample_message sample_url rejecting_remote
            sample_data
            (variableFields (sample_state [row "a" TyNumber (str "1")]))
          = ([ new_CobblAdminClient (str "key")
                 (str "https://api.example.test");
               client_runPrompt (str "greet")
                 (object_set (str "a") (JNumber (Finite false 1))
                    empty_object) ],
             Throw (ErrorObject (str "Unauthorized")))) as Htry
    by reflexivity.
  split; [exact Htry|].
  destruct (run_discards_previous_response sample_message sample_url
              rejecting_remote sample_data
              (sample_state [row "a" TyNumber (str "1")]))
    as (_ & _ & Hfailed).
  destruct (Hfailed _ _ Htry) as (Hresp & _ & Herr & _).
  by split.
Defined.

Lemma type_change_resets_value_witness :
  [row "a" TyString (str "free text")] !! 0%nat
  = Some (row "a" TyString (str "free text"))
  /\ updateVariableField 0 (upd_type TyObject)
       [row "a" TyString (str "free text")]
     = Some [row "a" TyObject (str "{}")].
Proof.
  assert ([row "a" TyString (str "free text")] !! 0%nat
          = Some (row "a" TyString (str "free text"))) as Hrow
    by reflexivity.
  split; [exact Hrow|].
  destruct (type_change_resets_value _ 0%nat _ TyObject Hrow)
    as (new & -> & Hty & Hkey & Hval & Hbool & Herr).
  destruct new as [k t v bv pe]. simpl in *. by subst.
Defined.

Lemma value_edit_flags_invalid_json_witness :
  [row "l" TyList (str "[]")] !! 0%nat = Some (row "l" TyList (str "[]"))
  /\ type (row "l" TyList (str "[]")) = TyList
  /\ JSON_parse (str "[1,") = None
  /\ updateVariableField 0 (upd_value (str "[1,")) [row "l" TyList (str "[]")]
     = Some [ {| key := str "l"; type := TyList; value := str "[1,";
                 boolValue := false;
                 parseError := Some (str "Invalid JSON") |} ].
Proof.
  assert ([row "l" TyList (str "[]")] !! 0%nat
          = Some (row "l" TyList (str "[]"))) as Hrow by reflexivity.
  split; [exact Hrow|]. split; [reflexivity|]. split; [reflexivity|].
  destruct (value_edit_flags_invalid_json _ 0%nat _ (str "[1,") Hrow)
    as (new & -> & Hval & Hty & Hkey & Hbool & Hjson & _).
  specialize (Hjson (or_introl eq_refl)).
  destruct new as [k t v bv pe]. simpl in *. by subst.
Defined.

Lemma fresh_list_or_object_row_converts_witness :
  (TyList = TyList \/ TyList = TyObject)
  /\ updateVariableField 0 (upd_type TyList)
       [row "l" TyString (str "free text")]
     = Some [row "l" TyList (str "[]")]
  /\ exists new,
       [row "l" TyList (str "[]")] !! 0%nat = Some new
       /\ parseVariableValue sample_message (type new) (value new)
            (boolValue new) = Normal (JArray []).
Proof.
  assert (updateVariableField 0 (upd_type TyList)
            [row "l" TyString (str "free text")]
          = Some [row "l" TyList (str "[]")]) as Hupd by reflexivity.
  split; [by left|]. split; [exact Hupd|].
  destruct (fresh_list_or_object_row_converts sample_message _ _ 0%nat
              TyList (or_introl eq_refl) Hupd) as (new & Hnew & Hconv & _).
  by exists new.
Defined.

Lemma feedback_success_appends_and_remounts_witness :
  build_variables sample_message
    (variableFields (sample_state [row "a" TyNumber (str "1")]))
    empty_object
  = Normal (object_set (str "a") (JNumber (Finite false 1)) empty_object)
  /\ sample_url = Some (str "https://api.example.test")
  /\ (let s0 := after_runPrompt sample_message sample_url sample_remote
                  sample_data (sample_state [row "a" TyNumber (str "1")]) in
      promptResponse s0 = Some sample_response
      /\ feedbackIds (onSuccess (str "fb-2") (onSuccess (str "fb-1") s0))
         = [str "fb-1"; str "fb-2"]
      /\ widgetKey s0 = 0
      /\ widgetKey (onSuccess (str "fb-1") s0) = 1
      /\ widgetKey (onSuccess (str "fb-2") (onSuccess (str "fb-1") s0)) = 2).
Proof.
  assert (build_variables sample_message
            (variableFields (sample_state [row "a" TyNumber (str "1")]))
            empty_object
          = Normal (object_set (str "a") (JNumber (Finite false 1))
                      empty_object)) as Hok by reflexivity.
  split; [exact Hok|]. split; [reflexivity|].
  destruct (feedback_success_appends_and_remounts sample_message sample_url
              sample_remote sample_data
              (sample_state [row "a" TyNumber (str "1")]) _
              (ch "h") (str "ttps://api.example.test") sample_response
              Hok eq_refl eq_refl)
    as (Hresp & _ & _ & Htwo).
  destruct (Htwo (str "fb-1") (str "fb-2")) as (Hids & _ & Hk0 & Hk1 & Hk2).
  by repeat split.
Defined.

(** * Further properties of the page *)

#[local] Arguments str : simpl never.

(** ** Trimming *)

Lemma trim_start_snoc l c :
  is_js_whitespace c = false ->
  trim_start (l ++ [c]) = trim_start l ++ [c].
Proof.
  intros Hc. induction l as [|a l IH]; simpl; [by rewrite Hc|].
  by destruct (is_js_whitespace a).
Qed.

Lemma trim_end_cons c s :
  is_js_whitespace c = false -> trim_end (c :: s) = c :: trim_end s.
Proof.
  intros Hc. unfold trim_end. simpl.
  by rewrite trim_start_snoc, rev_app_distr.
Qed.

Lemma trim_end_idempotent s : trim_end (trim_end s) = trim_end s.
Proof.
  unfold trim_end. by rewrite rev_involutive, trim_start_idempotent.
Qed.

Lemma trim_start_trim s : trim_start (trim s) = trim s.
Proof.
  unfold trim. pose proof (trim_start_idempotent s) as Hidem.
  destruct (trim_start s) as [|c t] eqn:Ht; [done|].
  assert (is_js_whitespace c = false) as Hc.
  { simpl in Hidem. destruct (is_js_whitespace c) eqn:Hc; [|done].
    exfalso. apply (f_equal length) in Hidem. simpl in Hidem.
    assert (forall l, length (trim_start l) <= length l)%nat as Hle.
    { clear. induction l as [|a l IH]; simpl; [lia|].
      destruct (is_js_whitespace a); simpl; lia. }
    specialize (Hle t). lia. }
  rewrite trim_end_cons by done. simpl. by rewrite Hc.
Qed.

Lemma trim_idempotent s : trim (trim s) = trim s.
Proof.
  unfold trim at 1. rewrite trim_start_trim. unfold trim.
  apply trim_end_idempotent.
Qed.

Lemma trim_start_app_whitespace ws s :
  Forall (fun c => is_js_whitespace c = true) ws ->
  trim_start (ws ++ s) = trim_start s.
Proof.
  induction 1 as [|c ws Hc _ IH]; [done|]. simpl. by rewrite Hc.
Qed.

(** ** Filtering by index *)

Lemma Array_filter_from_all {A} (keep : A -> nat -> bool) i (l : list A) :
  (forall x k, (i <= k)%nat -> keep x k = true) ->
  Array_filter_from keep i l = l.
Proof.
  revert i. induction l as [|x l IH]; intros i Hkeep; [done|].
  cbn [Array_filter_from]. rewrite Hkeep by lia. f_equal.
  apply IH. intros y k Hk. apply Hkeep. lia.
Qed.

Lemma Array_filter_from_delete {A} (keep : A -> nat -> bool) i index
    (l : list A) :
  (forall x k, keep x k = negb (k =? i + index)%nat) ->
  Array_filter_from keep i l = delete index l.
Proof.
  revert i index. induction l as [|x l IH]; intros i index Hkeep; [done|].
  cbn [Array_filter_from]. rewrite Hkeep. destruct index as [|index].
  - rewrite Nat.add_0_r, Nat.eqb_refl. cbn.
    apply Array_filter_from_all. intros y k Hk. rewrite Hkeep.
    destruct (Nat.eqb_spec k (i + 0)); [lia|done].
  - destruct (Nat.eqb_spec i (i + S index)); [lia|]. cbn. f_equal.
    apply IH. intros y k. rewrite Hkeep. f_equal. f_equal. lia.
Qed.


(** ** Feedback events *)

Lemma last_cons_or_head {A} (x : A) l :
  last (x :: l) = match last l with Some y => Some y | None => Some x end.
Proof.
  destruct l as [|y l]; [done|]. rewrite last_cons_cons.
  destruct (last (y :: l)) eqn:Hlast; [done|].
  by apply last_None in Hlast.
Qed.

Lemma success_ids_success id evs :
  success_ids (fb_success id :: evs) = id :: success_ids evs.
Proof. reflexivity. Qed.

Lemma success_ids_error m evs :
  success_ids (fb_error m :: evs) = success_ids evs.
Proof. reflexivity. Qed.

Lemma last_error_success id evs :
  last_error (fb_success id :: evs) = last_error evs.
Proof. reflexivity. Qed.

Lemma last_error_error m evs :
  last_error (fb_error m :: evs)
  = match last_error evs with Some m' => Some m' | None => Some m end.
Proof. apply last_cons_or_head. Qed.

Section Coverage.

Context (msg : jsstring -> jsstring).
Context (url : option jsstring).
Context (remote : jsstring -> jsstring -> jsstring -> VarsObject
                  -> ClientOutcome).



(** ** Conversion, type by type *)

(** X1: list conversion returns exactly the arrays that [JSON.parse]
    reads from the raw text; a text that does not parse fails with the
    engine's message after ["Invalid list JSON: "], and any other parsed
    value ([null] and objects included) fails with
    ["Invalid list JSON: Value must be an array"]. *)
Theorem list_conversion_iff_array text b :
  (forall v,
     parseVariableValue msg TyList text b = Normal v
     <-> JSON_parse text = Some v /\ exists elements, v = JArray elements)
  /\ (JSON_parse text = None ->
      parseVariableValue msg TyList text b
      = Throw (ErrorObject (str "Invalid list JSON: " ++ msg text)))
  /\ (forall w,
        JSON_parse text = Some w -> Array_isArray w = false ->
        parseVariableValue msg TyList text b
        = Throw (ErrorObject (str "Invalid list JSON: Value must be an array"))).
Proof.
  cbn [parseVariableValue]. unfold JSON_parse_throwing, try_catch.
  destruct (JSON_parse text) as [w|]; cbn [mbind completion_bind].
  - split; [|split; [discriminate|]].
    + intros v. destruct w; cbn; split;
        try discriminate; try (intros [[= <-] [? [=]]]);
        try (intros [= <-]); eauto.
    + intros w' [= <-] Hw. by rewrite Hw.
  - split; [|split; [done|discriminate]].
    intros v. split; [discriminate|]. by intros [[=] _].
Qed.

(** X2: object conversion returns exactly what [JSON.parse] reads from
    the raw text when that is an object or [null]; a text that does not
    parse fails with the engine's message after ["Invalid object JSON: "],
    and any other parsed value fails with
    ["Invalid object JSON: Value must be an object"]. *)
Theorem object_conversion_iff_object_or_null text b :
  (forall v,
     parseVariableValue msg TyObject text b = Normal v
     <-> JSON_parse text = Some v /\ (is_json_object v = true \/ v = JNull))
  /\ (JSON_parse text = None ->
      parseVariableValue msg TyObject text b
      = Throw (ErrorObject (str "Invalid object JSON: " ++ msg text)))
  /\ (forall w,
        JSON_parse text = Some w -> is_json_object w = false -> w <> JNull ->
        parseVariableValue msg TyObject text b
        = Throw (ErrorObject
                   (str "Invalid object JSON: Value must be an object"))).
Proof.
  cbn [parseVariableValue]. unfold JSON_parse_throwing, try_catch.
  destruct (JSON_parse text) as [w|]; cbn [mbind completion_bind].
  - split; [|split; [discriminate|]].
    + intros v. destruct w; cbn; split;
        try discriminate; try (intros [[= <-] [[=]|[=]]]);
        try (intros [= <-]); eauto.
    + intros w' [= <-] Hw Hn. by destruct w.
  - split; [|split; [done|discriminate]].
    intros v. split; [discriminate|]. by intros [[=] _].
Qed.

Lemma parseVariableValue_list_Normal text b v :
  parseVariableValue msg TyList text b = Normal v <->
  JSON_parse text = Some v /\ exists elements, v = JArray elements.
Proof.
  cbn [parseVariableValue]. unfold JSON_parse_throwing, try_catch.
  destruct (JSON_parse text) as [w|]; cbn [mbind completion_bind].
  - destruct w; cbn; split;
      try discriminate; try (intros [[= <-] [? [=]]]);
      try (intros [= <-]); eauto.
  - split; [discriminate|]. by intros [[=] _].
Qed.

(** X3: a converted value has the shape of the row's type: the raw text
    itself for string, the number [parseFloat] read (never [NaN]) for
    number, the switch for boolean, an array for list, and an object or
    [null] for object. *)
Theorem conversion_result_matches_type t text b v :
  parseVariableValue msg t text b = Normal v ->
  match t with
  | TyString => v = JString text
  | TyNumber => v = JNumber (parseFloat text) /\ parseFloat text <> NaN
  | TyBoolean => v = JBool b
  | TyList => exists elements, v = JArray elements
  | TyObject => (exists props, v = JObject props) \/ v = JNull
  end.
Proof.
  destruct t.
  - by intros [= <-].
  - rewrite parseVariableValue_number.
    destruct (parseFloat text); [discriminate| |]; by intros [= <-].
  - by intros [= <-].
  - intros H. by apply parseVariableValue_list_Normal in H as [_ ?].
  - intros H. by apply parseVariableValue_object_Normal in H as [_ ?].
Qed.

(** X4: string and boolean rows never fail to convert, and every
    failure carries its cause: a number row fails only when [parseFloat]
    reads [NaN], with ["Invalid number: "] and the raw text; a list or
    object row fails either on a text that does not parse, with the
    engine's message, or on a parsed value of the wrong kind.  The
    fallback ["Unknown error"] is never used. *)
Theorem conversion_failure_names_its_cause t text b e :
  parseVariableValue msg t text b = Throw e ->
  match t with
  | TyString | TyBoolean => False
  | TyNumber =>
      e = ErrorObject (str "Invalid number: " ++ text)
      /\ parseFloat text = NaN
  | TyList =>
      (JSON_parse text = None
       /\ e = ErrorObject (str "Invalid list JSON: " ++ msg text))
      \/ (exists w, JSON_parse text = Some w /\ Array_isArray w = false
          /\ e = ErrorObject (str "Invalid list JSON: Value must be an array"))
  | TyObject =>
      (JSON_parse text = None
       /\ e = ErrorObject (str "Invalid object JSON: " ++ msg text))
      \/ (exists w, JSON_parse text = Some w
          /\ e = ErrorObject
                   (str "Invalid object JSON: Value must be an object"))
  end.
Proof.
  destruct t; try discriminate.
  - rewrite parseVariableValue_number.
    destruct (parseFloat text); [|discriminate..]. by intros [= <-].
  - cbn [parseVariableValue]. unfold JSON_parse_throwing, try_catch.
    destruct (JSON_parse text) as [w|]; cbn [mbind completion_bind].
    + destruct (Array_isArray w) eqn:Hw; [discriminate|]. cbn.
      intros [= <-]. right. by exists w.
    + intros [= <-]. by left.
  - cbn [parseVariableValue]. unfold JSON_parse_throwing, try_catch.
    destruct (JSON_parse text) as [w|]; cbn [mbind completion_bind].
    + destruct (_ || _); [|discriminate]. cbn.
      intros [= <-]. right. by exists w.
    + intros [= <-]. by left.
Qed.

(** X5: white space in front of the raw text of a number row changes
    neither the number read nor whether the conversion fails. *)
Theorem number_conversion_ignores_leading_whitespace ws text b :
  Forall (fun c => is_js_whitespace c = true) ws ->
  parseFloat (ws ++ text) = parseFloat text
  /\ (forall v,
        parseVariableValue msg TyNumber (ws ++ text) b = Normal v
        <-> parseVariableValue msg TyNumber text b = Normal v)
  /\ ((exists e, parseVariableValue msg TyNumber (ws ++ text) b = Throw e)
      <-> (exists e, parseVariableValue msg TyNumber text b = Throw e)).
Proof.
  intros Hws.
  assert (parseFloat (ws ++ text) = parseFloat text) as Hpf.
  { unfold parseFloat. by rewrite trim_start_app_whitespace. }
  split; [done|]. rewrite !parseVariableValue_number, Hpf.
  destruct (parseFloat text); split; try done; split; eauto.
Qed.




Lemma build_variables_Normal_passes fields o o' :
  build_variables msg fields o = Normal o' -> Forall (passes msg) fields.
Proof.
  revert o. induction fields as [|f rest IH]; intros o; [by constructor|].
  cbn [build_variables]. destruct (trim (key f)) as [|c k] eqn:Hk.
  - intros H%IH. constructor; [by left|done].
  - cbn [truthy_string].
    destruct (parseVariableValue msg (type f) (value f) (boolValue f))
      as [v|e] eqn:Hv; cbn; [|discriminate].
    intros H%IH. constructor; [right; eauto|done].
Qed.

(** X6: the loop of [runPrompt] completes exactly when every row with a
    non-blank key converts. *)
Theorem submit_converts_iff_every_row_passes fields o :
  (exists o', build_variables msg fields o = Normal o')
  <-> Forall (passes msg) fields.
Proof.
  split.
  - intros [o' H]. by eapply build_variables_Normal_passes.
  - intros Hall.
    destruct (build_variables_passes msg fields [] o Hall) as [o' H].
    rewrite app_nil_r in H. by exists o'.
Qed.

(** X7: a row whose key is empty or made of white space only can be
    dropped from anywhere in the list without changing what the loop
    returns or throws, whatever its type and value. *)
Theorem whitespace_key_row_changes_nothing pre f post o :
  Forall (fun c => is_js_whitespace c = true) (key f) ->
  build_variables msg (pre ++ f :: post) o
  = build_variables msg (pre ++ post) o.
Proof.
  intros Hk%trim_blank. rewrite !build_variables_app.
  destruct (build_variables msg pre o) as [o1|e];
    cbn [mbind completion_bind]; [|done].
  by apply build_variables_blank.
Qed.

Lemma object_set_lookup_Some k k' v w o :
  own (object_set k' v o) !! k = Some w ->
  (k = k' /\ w = v) \/ own o !! k = Some w.
Proof.
  unfold object_set. destruct (_ && _).
  - rewrite set_proto_accessor_own. by right.
  - cbn. destruct (decide (k' = k)) as [->|Hne].
    + rewrite lookup_insert_eq. intros [= <-]. by left.
    + rewrite lookup_insert_ne by done. by right.
Qed.

Lemma build_variables_lookup k fields o o' :
  k <> proto_key -> k <> [] ->
  build_variables msg fields o = Normal o' ->
  own o' !! k = match last_row_with_key k fields with
                | Some f => converted msg f
                | None => own o !! k
                end.
Proof.
  intros Hproto Hk. revert o.
  induction fields as [|f rest IH]; intros o; [by intros [= <-]|].
  cbn [build_variables last_row_with_key].
  destruct (trim (key f)) as [|c t] eqn:Hkey; cbn [truthy_string].
  - intros H%IH. rewrite H.
    destruct (last_row_with_key k rest); [done|].
    by rewrite bool_decide_eq_false_2.
  - destruct (parseVariableValue msg (type f) (value f) (boolValue f))
      as [v|e] eqn:Hv; cbn; [|discriminate].
    intros H%IH. rewrite H.
    destruct (last_row_with_key k rest); [done|].
    case_bool_decide as Heq.
    + unfold converted. rewrite Hv, Heq. by apply object_set_lookup_eq.
    + by apply object_set_lookup_ne.
Qed.

(** X8: when the loop completes, the property it leaves under a key
    other than [__proto__] is the converted value of the last row whose
    trimmed key is that key, and there is none when no row has it. *)
Theorem submitted_value_is_last_row_with_key k fields variables :
  k <> proto_key -> k <> [] ->
  build_variables msg fields empty_object = Normal variables ->
  own variables !! k = last_row_with_key k fields ≫= converted msg.
Proof.
  intros Hproto Hk H.
  rewrite (build_variables_lookup k fields empty_object variables) by done.
  by destruct (last_row_with_key k fields).
Qed.

Lemma build_variables_key_origin fields o o' k w :
  build_variables msg fields o = Normal o' ->
  own o' !! k = Some w ->
  own o !! k = Some w
  \/ exists f, f ∈ fields /\ trim (key f) = k /\ k <> []
               /\ parseVariableValue msg (type f) (value f) (boolValue f)
                  = Normal w.
Proof.
  revert o. induction fields as [|f rest IH]; intros o.
  { intros [= <-]. by left. }
  cbn [build_variables].
  destruct (trim (key f)) as [|c t] eqn:Hkey; cbn [truthy_string].
  - intros H Hw. destruct (IH _ H Hw) as [?|(g & Hg & ?)]; [by left|].
    right. exists g. split; [by apply list_elem_of_further|done].
  - destruct (parseVariableValue msg (type f) (value f) (boolValue f))
      as [v|e] eqn:Hv; cbn; [|discriminate].
    intros H Hw. destruct (IH _ H Hw) as [Hset|(g & Hg & ?)].
    + apply object_set_lookup_Some in Hset as [[-> ->]|?]; [|by left].
      right. exists f. split; [apply list_elem_of_here|].
      by rewrite Hkey.
    + right. exists g. split; [by apply list_elem_of_further|done].
Qed.

(** X9: every property of the object the loop returns has a non-empty
    name without white space at either end, and its value is the converted
    value of a row whose trimmed key is that name. *)
Theorem submitted_properties_come_from_rows fields variables k w :
  build_variables msg fields empty_object = Normal variables ->
  own variables !! k = Some w ->
  k <> [] /\ trim k = k
  /\ exists f, f ∈ fields /\ trim (key f) = k
               /\ parseVariableValue msg (type f) (value f) (boolValue f)
                  = Normal w.
Proof.
  intros H Hw.
  destruct (build_variables_key_origin _ _ _ _ _ H Hw)
    as [Hempty|(f & Hf & Hk & Hne & Hv)].
  { cbn in Hempty. by rewrite lookup_empty in Hempty. }
  split; [done|]. split; [|by exists f].
  rewrite <- Hk. apply trim_idempotent.
Qed.

(** X10: when every row keyed [__proto__] is a string, number or boolean
    row, the object the loop returns has no [__proto__] property and still
    has [Object.prototype] as its prototype: those rows leave no trace. *)
Theorem primitive_proto_rows_never_reach_the_map fields variables :
  Forall (fun f => trim (key f) = proto_key ->
                   type f = TyString \/ type f = TyNumber
                   \/ type f = TyBoolean) fields ->
  build_variables msg fields empty_object = Normal variables ->
  own variables !! proto_key = None /\ proto variables = ObjectPrototype.
Proof.
  intros Hall.
  assert (forall o o',
            own o !! proto_key = None /\ proto o = ObjectPrototype ->
            build_variables msg fields o = Normal o' ->
            own o' !! proto_key = None /\ proto o' = ObjectPrototype) as Hinv.
  { induction Hall as [|f rest Hf _ IH]; intros o o' Ho.
    { by intros [= <-]. }
    cbn [build_variables].
    destruct (trim (key f)) as [|c t] eqn:Hkey; cbn [truthy_string].
    { by apply IH. }
    destruct (parseVariableValue msg (type f) (value f) (boolValue f))
      as [v|e] eqn:Hv; cbn; [|discriminate].
    apply IH. destruct Ho as [Hown Hproto].
    unfold object_set. rewrite Hproto. cbn [reaches_proto_accessor].
    rewrite andb_true_r.
    destruct (decide (c :: t = proto_key)) as [Heq|Hne].
    - rewrite Heq, bool_decide_eq_true_2 by done.
      rewrite bool_decide_eq_true_2 by done. cbn.
      destruct (Hf Heq) as [Ht|[Ht|Ht]]; rewrite Ht in Hv.
      + injection Hv as <-. by cbn.
      + rewrite parseVariableValue_number in Hv.
        destruct (parseFloat (value f)); [discriminate|..];
          injection Hv as <-; by cbn.
      + injection Hv as <-. by cbn.
    - rewrite (bool_decide_eq_false_2 (c :: t = proto_key)) by done. cbn.
      by rewrite lookup_insert_ne. }
  by apply Hinv.
Qed.












(** ** The editor *)

(** X12: [addVariableField] appends one row and leaves the others where
    they are; the new row is a string row with empty key and value, the
    switch off and no flag, and since its key is blank the loop of
    [runPrompt] behaves as it did before the row was added. *)
Theorem added_row_is_blank_and_inert (fields : list VariableField) :
  length (addVariableField fields) = S (length fields)
  /\ (forall i row, fields !! i = Some row ->
                    addVariableField fields !! i = Some row)
  /\ (exists new,
        addVariableField fields !! length fields = Some new
        /\ key new = [] /\ type new = TyString /\ value new = []
        /\ boolValue new = false /\ parseError new = None)
  /\ (forall o, build_variables msg (addVariableField fields) o
                = build_variables msg fields o).
Proof.
  unfold addVariableField. split; [|split; [|split]].
  - rewrite length_app. simpl. lia.
  - intros i row Hrow. rewrite lookup_app_l; [done|].
    by eapply lookup_lt_Some.
  - eexists. split.
    + rewrite lookup_app_r by done. by rewrite Nat.sub_diag.
    + done.
  - intros o. rewrite build_variables_app.
    by destruct (build_variables msg fields o).
Qed.

(** X13: [removeVariableField] is the filter of the source (keep the rows
    whose index differs): rows before the index stay in place, rows after
    it move up by one, the list is one shorter, and an index past the end
    changes nothing. *)
Theorem removed_row_is_the_one_at_index (fields : list VariableField) index :
  removeVariableField index fields
  = Array_filter (fun _ i => negb (i =? index)%nat) fields
  /\ (forall i, (i < index)%nat ->
        removeVariableField index fields !! i = fields !! i)
  /\ (forall i, (index <= i)%nat ->
        removeVariableField index fields !! i = fields !! S i)
  /\ ((length fields <= index)%nat ->
        removeVariableField index fields = fields)
  /\ ((index < length fields)%nat ->
        S (length (removeVariableField index fields)) = length fields).
Proof.
  unfold removeVariableField, Array_filter. split; [|split; [|split; [|split]]].
  - symmetry. by apply Array_filter_from_delete.
  - intros i Hi. by apply list_lookup_delete_lt.
  - intros i Hi. by apply list_lookup_delete_ge.
  - intros Hlen.
    rewrite delete_take_drop, take_ge, drop_ge by lia. apply app_nil_r.
  - intros Hlt. rewrite length_delete; [lia|].
    by apply lookup_lt_is_Some_2.
Qed.

(** X14: removing the row that [addVariableField] has just added gives
    the list back. *)
Theorem remove_undoes_add (fields : list VariableField) :
  removeVariableField (length fields) (addVariableField fields) = fields.
Proof.
  unfold removeVariableField, addVariableField.
  induction fields as [|f rest IH]; [done|]. simpl. by rewrite IH.
Qed.

(** X15: [updateVariableField] fails exactly when the index is past the
    end; otherwise the list keeps its length, every other row is
    untouched, and the row at the index is the old one updated. *)
Theorem update_touches_one_row (fields : list VariableField) index u :
  (updateVariableField index u fields = None
   <-> (length fields <= index)%nat)
  /\ (forall fields',
        updateVariableField index u fields = Some fields' ->
        length fields' = length fields
        /\ (forall j, j <> index -> fields' !! j = fields !! j)
        /\ exists old, fields !! index = Some old
                       /\ fields' !! index = Some (update_row u old)).
Proof.
  unfold updateVariableField. split.
  - rewrite <- lookup_ge_None. by destruct (fields !! index).
  - intros fields'. destruct (fields !! index) as [old|] eqn:Hold;
      [|discriminate].
    intros [= <-]. split; [apply length_insert|]. split.
    + intros j Hj. by apply list_lookup_insert_ne.
    + exists old. split; [done|]. apply list_lookup_insert_eq.
      by eapply lookup_lt_Some.
Qed.

(** X16: changing a row to the type it was just changed to changes
    nothing more. *)
Theorem type_change_is_idempotent (fields fields1 : list VariableField)
    index t :
  updateVariableField index (upd_type t) fields = Some fields1 ->
  updateVariableField index (upd_type t) fields1 = Some fields1.
Proof.
  unfold updateVariableField.
  destruct (fields !! index) as [old|] eqn:Hold; [|discriminate].
  intros [= <-].
  rewrite list_lookup_insert_eq by (by eapply lookup_lt_Some).
  rewrite list_insert_insert_eq. f_equal. f_equal. by destruct t.
Qed.

Lemma update_row_well_flagged u old :
  well_flagged old -> well_flagged (update_row u old).
Proof.
  unfold well_flagged. destruct old as [k t v bv pe]. cbn.
  intros ->. destruct u as [v'|v'|t'|b]; cbn.
  - done.
  - destruct (decide _) as [[-> | ->] | Hplain]; cbn.
    + destruct (JSON_parse v') eqn:Hp; cbn; by rewrite Hp.
    + destruct (JSON_parse v') eqn:Hp; cbn; by rewrite Hp.
    + destruct t; try done; exfalso; apply Hplain; auto.
  - by destruct t'.
  - done.
Qed.

Lemma edit_well_flagged fields a :
  Forall well_flagged fields -> Forall well_flagged (edit fields a).
Proof.
  intros Hall. destruct a as [|index|index u]; cbn.
  - unfold addVariableField. apply Forall_app. split; [done|].
    by repeat constructor.
  - unfold removeVariableField. by apply Forall_delete.
  - unfold updateVariableField.
    destruct (fields !! index) as [old|] eqn:Hold; [|done].
    apply Forall_insert; [done|]. apply update_row_well_flagged.
    by eapply Forall_lookup_1.
Qed.

(** X17: starting from no rows, after any sequence of add, remove and
    update calls every row's flag agrees with its content: on a list or
    object row it is ["Invalid JSON"] exactly when the raw value does not
    parse, and on every other row there is none. *)
Theorem editor_keeps_flags_in_step (actions : list EditorAction) :
  Forall well_flagged (foldl edit [] actions).
Proof.
  assert (forall fields,
            Forall well_flagged fields ->
            Forall well_flagged (foldl edit fields actions)) as Hgen.
  { induction actions as [|a actions IH]; intros fields Hall; [done|].
    cbn. apply IH. by apply edit_well_flagged. }
  apply Hgen. constructor.
Qed.

(** X18: a row that carries a flag in agreement with its content and
    has a non-blank key makes the loop of [runPrompt] throw. *)
Theorem flagged_row_blocks_submit fields f o :
  f ∈ fields -> well_flagged f -> parseError f <> None ->
  trim (key f) <> [] ->
  exists m, build_variables msg fields o = Throw (ErrorObject m).
Proof.
  intros Hin Hflag Hpe Hk.
  destruct (build_variables msg fields o) as [o'|e] eqn:Hb.
  - exfalso. 
    pose proof (build_variables_Normal_passes _ _ _ Hb) as Hall.
    rewrite Forall_forall in Hall. destruct (Hall f Hin) as [?|[v Hv]]; [done|].
    unfold well_flagged in Hflag. destruct f as [k t val bv pe].
    cbn [type value boolValue parseError key] in *.
    subst pe. destruct t; try done.
    + destruct (JSON_parse val) eqn:Hp; [done|].
      cbn [parseVariableValue] in Hv. unfold JSON_parse_throwing in Hv.
      by rewrite Hp in Hv.
    + destruct (JSON_parse val) eqn:Hp; [done|].
      cbn [parseVariableValue] in Hv. unfold JSON_parse_throwing in Hv.
      by rewrite Hp in Hv.
  - destruct (build_variables_throws_Error _ _ _ _ Hb) as [m ->]. eauto.
Qed.




(** ** The run *)

(** X19: when the rows convert, a base URL is configured and the client
    resolves, the run builds the client with the API key and the URL,
    calls it once with the slug and the converted variables, stores the
    response, collapses the input panel and ends idle, with no error, no
    feedback ids and the widget key at 0. *)
Theorem resolved_run_stores_response data s variables c u result :
  build_variables msg (variableFields s) empty_object = Normal variables ->
  url = Some (c :: u) ->
  remote (apiKey data) (c :: u) (promptSlug data) variables
  = Resolves result ->
  runPrompt msg url remote data s
  = runPrompt_reset
    ++ [ new_CobblAdminClient (apiKey data) (c :: u);
         client_runPrompt (promptSlug data) variables;
         setPromptResponse (Some result);
         setShowRunPrompt false;
         setIsRunning false ]
  /\ after_runPrompt msg url remote data s
     = {| promptResponse := Some result; feedbackIds := []; widgetKey := 0;
          error := None; isRunning := false;
          variableFields := variableFields s; showRunPrompt := false |}.
Proof.
  intros Hv Hu Hr. unfold after_runPrompt, runPrompt, runPrompt_try.
  by rewrite Hv, Hu, Hr.
Qed.

(** X20: when the client rejects, it has been called exactly once; the
    error shown is the message of the rejection, or
    ["An unknown error occurred"] when what was thrown is not an [Error];
    no response is stored and the input panel stays as it was. *)
Theorem rejected_run_reports_and_keeps_panel data s variables c u e :
  build_variables msg (variableFields s) empty_object = Normal variables ->
  url = Some (c :: u) ->
  remote (apiKey data) (c :: u) (promptSlug data) variables = Rejects e ->
  runPrompt msg url remote data s
  = runPrompt_reset
    ++ [ new_CobblAdminClient (apiKey data) (c :: u);
         client_runPrompt (promptSlug data) variables;
         setError (Some match e with
                        | ErrorObject m => m
                        | OtherThrown => str "An unknown error occurred"
                        end);
         setIsRunning false ]
  /\ after_runPrompt msg url remote data s
     = {| promptResponse := None; feedbackIds := []; widgetKey := 0;
          error := Some match e with
                        | ErrorObject m => m
                        | OtherThrown => str "An unknown error occurred"
                        end;
          isRunning := false;
          variableFields := variableFields s;
          showRunPrompt := showRunPrompt s |}.
Proof.
  intros Hv Hu Hr. unfold after_runPrompt, runPrompt, runPrompt_try.
  rewrite Hv, Hu, Hr. by destruct e.
Qed.

(** X21: every run ends with [isRunning] false and the rows untouched,
    builds at most one client and calls it at most once, and its first and
    last effects are [setIsRunning(true)] and [setIsRunning(false)]. *)
Theorem every_run_ends_idle data s :
  let trace := runPrompt msg url remote data s in
  let s' := after_runPrompt msg url remote data s in
  isRunning s' = false
  /\ variableFields s' = variableFields s
  /\ (length (filter (fun e => is_runPrompt_call e = true) trace) <= 1)%nat
  /\ (length (filter (fun e => is_new_client e = true) trace) <= 1)%nat
  /\ head trace = Some (setIsRunning true)
  /\ last trace = Some (setIsRunning false).
Proof.
  unfold after_runPrompt, runPrompt, runPrompt_try.
  destruct (build_variables msg (variableFields s) empty_object)
    as [variables|e].
  - destruct url as [[|c u]|].
    + vm_compute. repeat split; lia.
    + destruct (remote _ _ _ _) as [e|e|result].
      * vm_compute. repeat split; lia.
      * vm_compute. repeat split; lia.
      * vm_compute. repeat split; lia.
    + vm_compute. repeat split; lia.
  - vm_compute. repeat split; lia.
Qed.

(** X22: once a run is over, the page holds either a response and no
    error, or an error and no response. *)
Theorem run_leaves_response_or_error data s :
  let s' := after_runPrompt msg url remote data s in
  (exists result, promptResponse s' = Some result /\ error s' = None)
  \/ (exists m, promptResponse s' = None /\ error s' = Some m).
Proof.
  unfold after_runPrompt, runPrompt, runPrompt_try.
  destruct (build_variables msg (variableFields s) empty_object)
    as [variables|e]; [|right; destruct e; cbn; eauto].
  destruct url as [[|c u]|]; [right; cbn; eauto| |right; cbn; eauto].
  destruct (remote _ _ _ _) as [e|e|result];
    [right; destruct e; cbn; eauto..|left; cbn; eauto].
Qed.

(** X23: what a run does, and the state it ends in, depend on the rows
    and on whether the input panel is open, not on the response, error,
    feedback ids, widget key or running flag it started from. *)
Theorem run_forgets_previous_outputs data s1 s2 :
  variableFields s1 = variableFields s2 ->
  showRunPrompt s1 = showRunPrompt s2 ->
  runPrompt msg url remote data s1 = runPrompt msg url remote data s2
  /\ after_runPrompt msg url remote data s1
     = after_runPrompt msg url remote data s2.
Proof.
  intros Hf Hp. unfold after_runPrompt, runPrompt. rewrite Hf.
  split; [done|].
  destruct (runPrompt_try msg url remote data (variableFields s2))
    as [body outcome].
  rewrite !apply_effects_app. f_equal.
  destruct s1, s2; cbn in *. by subst.
Qed.

(** ** Feedback *)

Lemma feedback_session s evs :
  let sn := foldl feedback s evs in
  feedbackIds sn = feedbackIds s ++ success_ids evs
  /\ widgetKey sn = widgetKey s + N.of_nat (length (success_ids evs))
  /\ promptResponse sn = promptResponse s
  /\ isRunning sn = isRunning s
  /\ variableFields sn = variableFields s
  /\ error sn = match last_error evs with
                | Some m => Some m
                | None => error s
                end.
Proof.
  revert s. induction evs as [|ev evs IH]; intros s.
  { cbn. rewrite app_nil_r. repeat split. lia. }
  cbn [foldl]. cbn zeta.
  destruct (IH (feedback s ev)) as (-> & -> & -> & -> & -> & ->).
  destruct ev as [id|m].
  - rewrite success_ids_success, last_error_success.
    cbn [feedback onSuccess apply_effects fold_left apply_effect feedbackIds
      widgetKey promptResponse isRunning variableFields error length].
    rewrite <- app_assoc, Nat2N.inj_succ. repeat split. lia.
  - rewrite success_ids_error, last_error_error.
    cbn [feedback onError apply_effects fold_left apply_effect feedbackIds
      widgetKey promptResponse isRunning variableFields error].
    repeat split. by destruct (last_error evs).
Qed.

(** X24: after a run, whatever its outcome, and any sequence of
    feedback callbacks, the feedback ids are those of the successful
    submissions in order, the widget key equals their number, the response
    is the one the run left, and the error is the message of the last
    failed submission, or else the one the run left. *)
Theorem feedback_session_after_run data s evs :
  let s0 := after_runPrompt msg url remote data s in
  let sn := foldl feedback s0 evs in
  feedbackIds sn = success_ids evs
  /\ widgetKey sn = N.of_nat (length (feedbackIds sn))
  /\ promptResponse sn = promptResponse s0
  /\ isRunning sn = false
  /\ error sn = match last_error evs with
                | Some m => Some m
                | None => error s0
                end.
Proof.
  intros s0 sn.
  destruct (feedback_session s0 evs)
    as (Hids & Hkey & Hresp & Hrun & _ & Herr). fold sn in Hids, Hkey, Hresp, Hrun, Herr.
  assert (feedbackIds s0 = [] /\ widgetKey s0 = 0 /\ isRunning s0 = false)
    as (Hids0 & Hkey0 & Hrun0).
  { subst s0. unfold after_runPrompt, runPrompt, runPrompt_try.
    destruct (build_variables msg (variableFields s) empty_object)
      as [variables|e]; [|by destruct e].
    destruct url as [[|c u]|]; [done| |done].
    destruct (remote _ _ _ _) as [e|e|result]; [by destruct e..|done]. }
  rewrite Hids, Hids0, Hkey, Hkey0, Hresp, Hrun, Hrun0, Herr.
  by repeat split.
Qed.

End Coverage.

(** ** The further properties at concrete inputs *)

Lemma conversion_result_matches_type_witness :
  parseVariableValue sample_message TyNumber (str "42") false
  = Normal (JNumber (Finite false 42))
  /\ JNumber (Finite false 42) = JNumber (parseFloat (str "42"))
  /\ parseFloat (str "42") <> NaN.
Proof.
  split; [reflexivity|].
  exact (conversion_result_matches_type sample_message TyNumber (str "42")
           false (JNumber (Finite false 42)) eq_refl).
Defined.

Lemma conversion_failure_names_its_cause_witness :
  parseVariableValue sample_message TyNumber (str "abc") false
  = Throw (ErrorObject (str "Invalid number: abc"))
  /\ ErrorObject (str "Invalid number: abc")
     = ErrorObject (str "Invalid number: " ++ str "abc")
  /\ parseFloat (str "abc") = NaN.
Proof.
  split; [reflexivity|].
  exact (conversion_failure_names_its_cause sample_message TyNumber
           (str "abc") false (ErrorObject (str "Invalid number: abc"))
           eq_refl).
Defined.

Lemma number_conversion_ignores_leading_whitespace_witness :
  Forall (fun c => is_js_whitespace c = true) (str "  ")
  /\ parseFloat (str "  " ++ str "42") = parseFloat (str "42").
Proof.
  assert (Forall (fun c => is_js_whitespace c = true) (str "  ")) as Hws
    by (repeat constructor).
  split; [exact Hws|].
  exact (proj1 (number_conversion_ignores_leading_whitespace sample_message
                  (str "  ") (str "42") false Hws)).
Defined.

Lemma whitespace_key_row_changes_nothing_witness :
  Forall (fun c => is_js_whitespace c = true)
    (key (row "  " TyNumber (str "abc")))
  /\ build_variables sample_message
       ([row "a" TyNumber (str "1")] ++ row "  " TyNumber (str "abc")
        :: [row "b" TyString (str "x")]) empty_object
     = build_variables sample_message
         ([row "a" TyNumber (str "1")] ++ [row "b" TyString (str "x")])
         empty_object.
Proof.
  assert (Forall (fun c => is_js_whitespace c = true)
            (key (row "  " TyNumber (str "abc")))) as Hws
    by (repeat constructor).
  split; [exact Hws|].
  exact (whitespace_key_row_changes_nothing sample_message _ _ _ _ Hws).
Defined.

Lemma submitted_value_is_last_row_with_key_witness :
  str "n" <> proto_key
  /\ str "n" <> []
  /\ build_variables sample_message
       [ row "n" TyNumber (str "1"); row " n " TyString (str "two") ]
       empty_object
     = Normal (object_set (str "n") (JString (str "two"))
                 (object_set (str "n") (JNumber (Finite false 1))
                    empty_object))
  /\ own (object_set (str "n") (JString (str "two"))
            (object_set (str "n") (JNumber (Finite false 1)) empty_object))
       !! str "n"
     = Some (JString (str "two")).
Proof.
  assert (str "n" <> proto_key) as Hproto by (vm_compute; discriminate).
  assert (str "n" <> []) as Hk by (vm_compute; discriminate).
  assert (build_variables sample_message
            [ row "n" TyNumber (str "1"); row " n " TyString (str "two") ]
            empty_object
          = Normal (object_set (str "n") (JString (str "two"))
                      (object_set (str "n") (JNumber (Finite false 1))
                         empty_object))) as Hbuild by reflexivity.
  split; [exact Hproto|]. split; [exact Hk|]. split; [exact Hbuild|].
  rewrite (submitted_value_is_last_row_with_key sample_message _ _ _
             Hproto Hk Hbuild).
  reflexivity.
Defined.

Lemma submitted_properties_come_from_rows_witness :
  build_variables sample_message [row " a " TyNumber (str "1")] empty_object
  = Normal (object_set (str "a") (JNumber (Finite false 1)) empty_object)
  /\ own (object_set (str "a") (JNumber (Finite false 1)) empty_object)
       !! str "a"
     = Some (JNumber (Finite false 1))
  /\ str "a" <> [] /\ trim (str "a") = str "a".
Proof.
  assert (build_variables sample_message [row " a " TyNumber (str "1")]
            empty_object
          = Normal (object_set (str "a") (JNumber (Finite false 1))
                      empty_object)) as Hbuild by reflexivity.
  assert (own (object_set (str "a") (JNumber (Finite false 1)) empty_object)
            !! str "a"
          = Some (JNumber (Finite false 1))) as Hlookup
    by apply lookup_insert_eq.
  split; [exact Hbuild|]. split; [exact Hlookup|].
  destruct (submitted_properties_come_from_rows sample_message _ _ _ _
              Hbuild Hlookup) as (Hne & Htrim & _).
  by split.
Defined.

Lemma primitive_proto_rows_never_reach_the_map_witness :
  Forall (fun f => trim (key f) = proto_key ->
                   type f = TyString \/ type f = TyNumber
                   \/ type f = TyBoolean)
    [ row "__proto__" TyNumber (str "1"); row "a" TyObject (str "{}") ]
  /\ build_variables sample_message
       [ row "__proto__" TyNumber (str "1"); row "a" TyObject (str "{}") ]
       empty_object
     = Normal (object_set (str "a") (JObject []) empty_object)
  /\ own (object_set (str "a") (JObject []) empty_object) !! proto_key = None
  /\ proto (object_set (str "a") (JObject []) empty_object) = ObjectPrototype.
Proof.
  assert (Forall (fun f => trim (key f) = proto_key ->
                           type f = TyString \/ type f = TyNumber
                           \/ type f = TyBoolean)
            [ row "__proto__" TyNumber (str "1");
              row "a" TyObject (str "{}") ]) as Hrows.
  { constructor; [|constructor; [|constructor]].
    - intros _. right. by left.
    - intros Hkey. vm_compute in Hkey. discriminate. }
  assert (build_variables sample_message
            [ row "__proto__" TyNumber (str "1");
              row "a" TyObject (str "{}") ] empty_object
          = Normal (object_set (str "a") (JObject []) empty_object))
    as Hbuild by reflexivity.
  split; [exact Hrows|]. split; [exact Hbuild|].
  exact (primitive_proto_rows_never_reach_the_map sample_message _ _
           Hrows Hbuild).
Defined.


Lemma type_change_is_idempotent_witness :
  updateVariableField 0 (upd_type TyList) [row "a" TyString (str "text")]
  = Some [row "a" TyList (str "[]")]
  /\ updateVariableField 0 (upd_type TyList) [row "a" TyList (str "[]")]
     = Some [row "a" TyList (str "[]")].
Proof.
  assert (updateVariableField 0 (upd_type TyList)
            [row "a" TyString (str "text")]
          = Some [row "a" TyList (str "[]")]) as Hfirst by reflexivity.
  split; [exact Hfirst|].
  exact (type_change_is_idempotent _ _ 0%nat TyList Hfirst).
Defined.

Lemma flagged_row_blocks_submit_witness :
  {| key := str "l"; type := TyList; value := str "[1,"; boolValue := false;
     parseError := Some (str "Invalid JSON") |}
  ∈ [ row "a" TyNumber (str "1");
      {| key := str "l"; type := TyList; value := str "[1,";
         boolValue := false; parseError := Some (str "Invalid JSON") |} ]
  /\ well_flagged
       {| key := str "l"; type := TyList; value := str "[1,";
          boolValue := false; parseError := Some (str "Invalid JSON") |}
  /\ exists m,
       build_variables sample_message
         [ row "a" TyNumber (str "1");
           {| key := str "l"; type := TyList; value := str "[1,";
              boolValue := false;
              parseError := Some (str "Invalid JSON") |} ] empty_object
       = Throw (ErrorObject m).
Proof.
  assert ({| key := str "l"; type := TyList; value := str "[1,";
             boolValue := false; parseError := Some (str "Invalid JSON") |}
          ∈ [ row "a" TyNumber (str "1");
              {| key := str "l"; type := TyList; value := str "[1,";
                 boolValue := false;
                 parseError := Some (str "Invalid JSON") |} ]) as Hin
    by (apply list_elem_of_further, list_elem_of_here).
  assert (well_flagged
            {| key := str "l"; type := TyList; value := str "[1,";
               boolValue := false;
               parseError := Some (str "Invalid JSON") |}) as Hflag
    by reflexivity.
  split; [exact Hin|]. split; [exact Hflag|].
  apply (flagged_row_blocks_submit sample_message _ _ empty_object Hin Hflag).
  - discriminate.
  - vm_compute. discriminate.
Defined.

Lemma resolved_run_stores_response_witness :
  build_variables sample_message
    (variableFields (sample_state [row "a" TyNumber (str "1")]))
    empty_object
  = Normal (object_set (str "a") (JNumber (Finite false 1)) empty_object)
  /\ after_runPrompt sample_message sample_url sample_remote sample_data
       (sample_state [row "a" TyNumber (str "1")])
     = {| promptResponse := Some sample_response; feedbackIds := [];
          widgetKey := 0; error := None; isRunning := false;
          variableFields := [row "a" TyNumber (str "1")];
          showRunPrompt := false |}.
Proof.
  assert (build_variables sample_message
            (variableFields (sample_state [row "a" TyNumber (str "1")]))
            empty_object
          = Normal (object_set (str "a") (JNumber (Finite false 1))
                      empty_object)) as Hok by reflexivity.
  split; [exact Hok|].
  exact (proj2 (resolved_run_stores_response sample_message sample_url
                  sample_remote sample_data
                  (sample_state [row "a" TyNumber (str "1")]) _
                  (ch "h") (str "ttps://api.example.test") sample_response
                  Hok eq_refl eq_refl)).
Defined.

Lemma rejected_run_reports_and_keeps_panel_witness :
  build_variables sample_message
    (variableFields (sample_state [row "a" TyNumber (str "1")]))
    empty_object
  = Normal (object_set (str "a") (JNumber (Finite false 1)) empty_object)
  /\ after_runPrompt sample_message sample_url
       (fun _ _ _ _ => Rejects OtherThrown) sample_data
       (sample_state [row "a" TyNumber (str "1")])
     = {| promptResponse := None; feedbackIds := []; widgetKey := 0;
          error := Some (str "An unknown error occurred");
          isRunning := false;
          variableFields := [row "a" TyNumber (str "1")];
          showRunPrompt := false |}.
Proof.
  assert (build_variables sample_message
            (variableFields (sample_state [row "a" TyNumber (str "1")]))
            empty_object
          = Normal (object_set (str "a") (JNumber (Finite false 1))
                      empty_object)) as Hok by reflexivity.
  split; [exact Hok|].
  exact (proj2 (rejected_run_reports_and_keeps_panel sample_message
                  sample_url (fun _ _ _ _ => Rejects OtherThrown) sample_data
                  (sample_state [row "a" TyNumber (str "1")]) _
                  (ch "h") (str "ttps://api.example.test") OtherThrown
                  Hok eq_refl eq_refl)).
Defined.

Lemma run_forgets_previous_outputs_witness :
  variableFields (sample_state three_rows)
  = variableFields
      {| promptResponse := None; feedbackIds := []; widgetKey := 7;
         error := None; isRunning := true; variableFields := three_rows;
         showRunPrompt := false |}
  /\ after_runPrompt sample_message sample_url sample_remote sample_data
       (sample_state three_rows)
     = after_runPrompt sample_message sample_url sample_remote sample_data
         {| promptResponse := None; feedbackIds := []; widgetKey := 7;
            error := None; isRunning := true; variableFields := three_rows;
            showRunPrompt := false |}.
Proof.
  split; [reflexivity|].
  exact (proj2 (run_forgets_previous_outputs sample_message sample_url
                  sample_remote sample_data (sample_state three_rows)
                  {| promptResponse := None; feedbackIds := [];
                     widgetKey := 7; error := None; isRunning := true;
                     variableFields := three_rows;
                     showRunPrompt := false |}
                  eq_refl eq_refl)).
Defined.
